(** * boltzmann: bouncing disks exchanging coins

    A shallow embedding of the simulation core of [disk_sim.cpp] and of the
    variants of it kept in the repository: kinematics with wall reflection,
    pairwise collision detection and response, the coin-exchange rules, the
    per-tick stepper, the throttled statistics sampling and the initial
    placement of the disks.

    Numeric model.  The C++ [float] is read as a real number extended with
    one non-finite value [NaN]: arithmetic is exact (no rounding, no
    overflow) and a division by zero yields [NaN], which then propagates and
    makes every comparison false, as in IEEE 754.  The only division of the
    program has the centre distance as divisor, and that distance is zero
    only when both numerators are zero, so [0/0 = NaN] is the one non-finite
    case that arises.  The C++ [int] is read as [Z]; every theorem below
    keeps the coin counts and radii in a range where no 32-bit overflow can
    occur.

    Random source.  [std::mt19937] is read as an infinite tape of raw 32-bit
    outputs with a read cursor; quantifying over the tape quantifies over
    all random outcomes.  Each distribution call consumes one raw output. *)

From Stdlib Require Import Reals Lra Lia ZArith List Bool.
Import ListNotations.

Open Scope R_scope.

(** ** Numbers *)

Inductive float : Type :=
| Fin (r : R)
| NaN.

Definition is_finite (a : float) : Prop :=
  match a with Fin _ => True | NaN => False end.

Definition fadd (a b : float) : float :=
  match a, b with Fin x, Fin y => Fin (x + y) | _, _ => NaN end.

Definition fsub (a b : float) : float :=
  match a, b with Fin x, Fin y => Fin (x - y) | _, _ => NaN end.

Definition fmul (a b : float) : float :=
  match a, b with Fin x, Fin y => Fin (x * y) | _, _ => NaN end.

Definition fneg (a : float) : float :=
  match a with Fin x => Fin (- x) | NaN => NaN end.

Definition fdiv (a b : float) : float :=
  match a, b with
  | Fin x, Fin y => if Req_dec_T y 0 then NaN else Fin (x / y)
  | _, _ => NaN
  end.

Definition fsqrt (a : float) : float :=
  match a with Fin x => Fin (sqrt x) | NaN => NaN end.

(** Comparisons: any comparison with [NaN] is false. *)
Definition flt (a b : float) : bool :=
  match a, b with
  | Fin x, Fin y => if Rlt_dec x y then true else false
  | _, _ => false
  end.

Definition fgt (a b : float) : bool := flt b a.

Definition fge (a b : float) : bool :=
  match a, b with
  | Fin x, Fin y => if Rle_dec y x then true else false
  | _, _ => false
  end.

(** Conversion of an [int] to [float]. *)
Definition of_int (z : Z) : float := Fin (IZR z).

Declare Scope float_scope.
Delimit Scope float_scope with fl.
Infix "+" := fadd : float_scope.
Infix "-" := fsub : float_scope.
Infix "*" := fmul : float_scope.
Infix "/" := fdiv : float_scope.
Infix "<?" := flt : float_scope.
Infix ">?" := fgt : float_scope.
Infix ">=?" := fge : float_scope.

(** ** The random engine *)

Record mt19937 : Type := mkRng { tape : nat -> Z; cursor : nat }.

Definition raw_range : Z := 4294967296.

(** One call of the engine: a raw value in [0, 2^32) and the advanced engine. *)
Definition rng_next (g : mt19937) : Z * mt19937 :=
  ((tape g (cursor g) mod raw_range)%Z, mkRng (tape g) (S (cursor g))).

(** [std::uniform_int_distribution<size_t>(0, n - 1)] for [n > 0]. *)
Definition uniform_int (n : nat) (g : mt19937) : nat * mt19937 :=
  let (r, g') := rng_next g in (Z.to_nat (r mod Z.of_nat n), g').

(** [std::uniform_real_distribution<float>(a, b)]: a value of [[a, b)]. *)
Definition uniform_real (a b : float) (g : mt19937) : float * mt19937 :=
  let (r, g') := rng_next g in
  ((a + (b - a) * Fin (IZR r / IZR raw_range))%fl, g').

(** The test [dist01(rng) < 0.5f] on a fresh draw of [[0, 1)]. *)
Definition coin_flip (g : mt19937) : bool * mt19937 :=
  let (r, g') := rng_next g in ((r <? 2147483648)%Z, g').

(** Engines of the same seed: same position on pointwise equal tapes. *)
Definition same_seed (g h : mt19937) : Prop :=
  cursor g = cursor h /\ forall n, tape g n = tape h n.

(** ** Bodies *)

Record Disk : Type := mkDisk {
  x : float; y : float;
  vx : float; vy : float;
  radius : Z;
  coin_count : Z
}.

Definition finite_disk (d : Disk) : Prop :=
  is_finite (x d) /\ is_finite (y d) /\ is_finite (vx d) /\ is_finite (vy d).

Definition distance (a b : Disk) : float :=
  let dx := (x b - x a)%fl in
  let dy := (y b - y a)%fl in
  fsqrt (dx * dx + dy * dy)%fl.

Definition set_pos (d : Disk) (x' y' : float) : Disk :=
  mkDisk x' y' (vx d) (vy d) (radius d) (coin_count d).

Definition set_vel (d : Disk) (vx' vy' : float) : Disk :=
  mkDisk (x d) (y d) vx' vy' (radius d) (coin_count d).

Definition set_coins (d : Disk) (q : Z) : Disk :=
  mkDisk (x d) (y d) (vx d) (vy d) (radius d) q.

(** ** Blocks shared by every variant of [handle_disk_collision] *)

(** The collision normal [(d2 - d1) / dist]. *)
Definition normal (d1 d2 : Disk) (dist : float) : float * float :=
  (((x d2 - x d1) / dist)%fl, ((y d2 - y d1) / dist)%fl).

(** Component of the velocity of [d] along the direction [(nx, ny)]. *)
Definition along (d : Disk) (nx ny : float) : float :=
  (vx d * nx + vy d * ny)%fl.

(** The elastic response for equal masses: both velocities are updated from
    the normal components [v1n], [v2n] read before either update. *)
Definition elastic (nx ny : float) (d1 d2 : Disk) : Disk * Disk :=
  let v1n := along d1 nx ny in
  let v2n := along d2 nx ny in
  (set_vel d1 (vx d1 + (v2n - v1n) * nx)%fl (vy d1 + (v2n - v1n) * ny)%fl,
   set_vel d2 (vx d2 + (v1n - v2n) * nx)%fl (vy d2 + (v1n - v2n) * ny)%fl).

(** The overlap fix: each disk is moved by half the overlap along the normal. *)
Definition overlap_fix (nx ny dist : float) (d1 d2 : Disk) : Disk * Disk :=
  let overlap := (of_int (radius d1 + radius d2) - dist)%fl in
  if (overlap >? Fin 0)%fl then
    let half := (overlap * Fin (5 / 10))%fl in
    (set_pos d1 (x d1 - nx * half)%fl (y d1 - ny * half)%fl,
     set_pos d2 (x d2 + nx * half)%fl (y d2 + ny * half)%fl)
  else (d1, d2).

(** [n] tests [dist01(rng) < 0.5f] in a row, counting the successes. *)
Fixpoint count_flips (n : nat) (moved : Z) (g : mt19937) : Z * mt19937 :=
  match n with
  | O => (moved, g)
  | S n' =>
      let (heads, g') := coin_flip g in
      count_flips n' (if heads then moved + 1 else moved)%Z g'
  end.

(** The final clamp of the independent-trial variants (upper bound only). *)
Definition clamp_max (cap q : Z) : Z := if (q >? cap)%Z then cap else q.

(** The standard exchange of the independent-trial variants on the two coin
    counts: [t1] flips move coins from disk 1 to disk 2, then [t2] flips move
    coins back, then both counts are clamped from above. *)
Definition independent_trials (cap t1 t2 q1 q2 : Z) (g : mt19937)
  : Z * Z * mt19937 :=
  let (to_d2, g) := count_flips (Z.to_nat t1) 0%Z g in
  let q1 := (q1 - to_d2)%Z in
  let q2 := (q2 + to_d2)%Z in
  let (to_d1, g) := count_flips (Z.to_nat t2) 0%Z g in
  let q2 := (q2 - to_d1)%Z in
  let q1 := (q1 + to_d1)%Z in
  (clamp_max cap q1, clamp_max cap q2, g).

(** Wall reflection on one axis: [lo] is always 0 in the source. *)
Definition reflect (pos vel : float) (r : Z) (hi hi_minus_r : float)
  : float * float :=
  if (pos - of_int r <? Fin 0)%fl then (of_int r, fneg vel)
  else if (pos + of_int r >? hi)%fl then (hi_minus_r, fneg vel)
  else (pos, vel).

(** Replace element [i] of a vector (no change when out of range; the source
    only indexes below [DISK_COUNT], the size of the vector). *)
Fixpoint set_nth {A : Type} (i : nat) (a : A) (l : list A) : list A :=
  match l, i with
  | [], _ => []
  | _ :: t, O => a :: t
  | h :: t, S i' => h :: set_nth i' a t
  end.

(** [counts[q]++]; an index outside the vector is left without effect here
    (it is undefined behaviour in the source). *)
Definition bump (q : Z) (counts : list Z) : list Z :=
  if (q <? 0)%Z then counts
  else match nth_error counts (Z.to_nat q) with
       | Some c => set_nth (Z.to_nat q) (c + 1)%Z counts
       | None => counts
       end.

(** Element-wise combination of two vectors. *)
Fixpoint zip_with {A B C : Type} (f : A -> B -> C) (l : list A) (m : list B)
  : list C :=
  match l, m with
  | a :: l', b :: m' => f a b :: zip_with f l' m'
  | _, _ => []
  end.

(** ** The first program: uniform redistribution, non-overlapping placement *)

Module Uniform.

Definition WIDTH : Z := 800.
Definition HEIGHT : Z := 600.
Definition DISK_RADIUS : Z := 20.
Definition DISK_COUNT : nat := 20.
Definition MAX_COINS_PER_DISK : Z := 25.
Definition CHART_TOP : float := Fin 400.

(** The loop [for (coins_in_d1 = ...; coins_in_d1 <= total_coins; ...)], with
    [fuel] the number of iterations left. *)
Fixpoint redistribution_loop (fuel : nat) (coins_in_d1 total_coins : Z)
  : list (Z * Z) :=
  match fuel with
  | O => []
  | S fuel' =>
      let coins_in_d2 := (total_coins - coins_in_d1)%Z in
      let rest := redistribution_loop fuel' (coins_in_d1 + 1)%Z total_coins in
      if ((coins_in_d1 <=? MAX_COINS_PER_DISK)
          && (coins_in_d2 <=? MAX_COINS_PER_DISK))%Z
      then (coins_in_d1, coins_in_d2) :: rest
      else rest
  end.

Definition possible_redistributions (total_coins : Z) : list (Z * Z) :=
  redistribution_loop (Z.to_nat (total_coins + 1)) 0%Z total_coins.

(** The coin-exchange block, on the two coin counts.  (For a total below -1
    the [reserve] of the source would throw; the totals of non-negative
    counts never get there.) *)
Definition redistribute (q1 q2 : Z) (rng : mt19937) : Z * Z * mt19937 :=
  let total_coins := (q1 + q2)%Z in
  let possible := possible_redistributions total_coins in
  match possible with
  | [] => (q1, q2, rng)
  | _ :: _ =>
      let (idx, rng') := uniform_int (length possible) rng in
      let p := nth idx possible (0%Z, 0%Z) in
      (fst p, snd p, rng')
  end.

Definition handle_disk_collision (d1 d2 : Disk) (rng : mt19937)
  : bool * (Disk * Disk) * mt19937 :=
  let dist := distance d1 d2 in
  if (dist <? of_int (radius d1 + radius d2))%fl then
    let (nx, ny) := normal d1 d2 dist in
    let (d1, d2) := elastic nx ny d1 d2 in
    let '(q1, q2, rng) := redistribute (coin_count d1) (coin_count d2) rng in
    let (d1, d2) := overlap_fix nx ny dist (set_coins d1 q1) (set_coins d2 q2) in
    (true, (d1, d2), rng)
  else (false, (d1, d2), rng).

Definition update_position (g_speedFactor : float) (disk : Disk) (dt : float)
  : Disk :=
  let x1 := (x disk + vx disk * dt * g_speedFactor)%fl in
  let y1 := (y disk + vy disk * dt * g_speedFactor)%fl in
  let r := radius disk in
  let (x2, vx2) := reflect x1 (vx disk) r (of_int WIDTH) (of_int (WIDTH - r)) in
  let (y2, vy2) := reflect y1 (vy disk) r CHART_TOP (CHART_TOP - of_int r)%fl in
  mkDisk x2 y2 vx2 vy2 r (coin_count disk).

(** *** Initial placement *)

Definition is_valid_position (existing_disks : list Disk) (px py : float)
  (r : Z) : bool :=
  if ((px - of_int r <? Fin 0)%fl || (px + of_int r >? of_int WIDTH)%fl ||
      (py - of_int r <? Fin 0)%fl || (py + of_int r >? CHART_TOP)%fl)%bool
  then false
  else
    forallb
      (fun disk =>
         let dx := (px - x disk)%fl in
         let dy := (py - y disk)%fl in
         let min_dist := (of_int (r + radius disk) * Fin (11 / 10))%fl in
         negb (dx * dx + dy * dy <? min_dist * min_dist)%fl)
      existing_disks.

Fixpoint find_valid_position (existing_disks : list Disk) (rng : mt19937)
  (r : Z) (max_attempts : nat) : option (float * float) * mt19937 :=
  match max_attempts with
  | O => (None, rng)
  | S attempts_left =>
      let (px, rng) := uniform_real (of_int r) (of_int (WIDTH - r)) rng in
      let (py, rng) := uniform_real (of_int r) (CHART_TOP - of_int r)%fl rng in
      if is_valid_position existing_disks px py r then (Some (px, py), rng)
      else find_valid_position existing_disks rng r attempts_left
  end.

(** The default of the parameter [max_attempts]. *)
Definition default_max_attempts : nat := 1000.

(** Outcome of the placement loop of [main]: the population, or the index of
    the disk that could not be placed ([main] prints it and returns 1). *)
Inductive placement : Type :=
| Placed (disks : list Disk)
| PlacementFailure (i : nat).

(** The body of the loop [for (int i = 0; i < DISK_COUNT; i++)] of [main]
    for disk [i]: the population with the new disk, or nothing when the
    search for a position is exhausted. *)
Definition place_one (i : nat) (disks : list Disk) (rng : mt19937)
  : option (list Disk) * mt19937 :=
  match find_valid_position disks rng DISK_RADIUS default_max_attempts with
  | (None, rng) => (None, rng)
  | (Some (px, py), rng) =>
      let (wx, rng) := uniform_real (Fin (-200)) (Fin 200) rng in
      let (wy, rng) := uniform_real (Fin (-200)) (Fin 200) rng in
      let initial_coins := if Nat.eqb i 0 then MAX_COINS_PER_DISK else 0%Z in
      (Some (disks ++ [mkDisk px py wx wy DISK_RADIUS initial_coins]), rng)
  end.

(** The loop, with [todo] the number of disks still to place. *)
Fixpoint place_disks (todo i : nat) (disks : list Disk) (rng : mt19937)
  : placement * mt19937 :=
  match todo with
  | O => (Placed disks, rng)
  | S todo' =>
      match place_one i disks rng with
      | (None, rng) => (PlacementFailure i, rng)
      | (Some disks, rng) => place_disks todo' (S i) disks rng
      end
  end.

Definition initialize_population (rng : mt19937) : placement * mt19937 :=
  place_disks DISK_COUNT 0 [] rng.

(** *** Statistics *)

Record Stats : Type := mkStats {
  cumulative_counts : list Z;
  xdata : list (list float);
  ydata : list (list float);
  g_coinFraction : list float
}.

Definition initial_stats : Stats :=
  let n := Z.to_nat (MAX_COINS_PER_DISK + 1) in
  mkStats (repeat 0%Z n) (repeat [] n) (repeat [] n) (repeat (Fin 0) n).

Definition histogram (disks : list Disk) : list Z :=
  fold_left (fun counts d => bump (coin_count d) counts) disks
    (repeat 0%Z (Z.to_nat (MAX_COINS_PER_DISK + 1))).

(** The average number of disks: [cumulative / collision_count], 0 before the
    first collision. *)
Definition avgNum (collision_count cumulative : Z) : float :=
  if (collision_count >? 0)%Z
  then (of_int cumulative / of_int collision_count)%fl
  else Fin 0.

Definition update_plot (collision_count : Z) (disks : list Disk) (st : Stats)
  : Stats :=
  let counts := histogram disks in
  let cumulative := zip_with Z.add (cumulative_counts st) counts in
  mkStats cumulative
    (map (fun series => series ++ [of_int collision_count]) (xdata st))
    (zip_with (fun series c => series ++ [avgNum collision_count c])
       (ydata st) cumulative)
    (map (avgNum collision_count) cumulative).

(** *** The stepper *)

Record Sim : Type := mkSim {
  disks : list Disk;
  collision_count : Z;
  time_since_plot : float;
  stats : Stats;
  g_speedFactor : float;
  rng : mt19937
}.

(** One call [handle_disk_collision(disks[i], disks[j], rng)] of the pair
    loop, on the vector as earlier pairs of the tick left it. *)
Definition collide_pair (i j : nat) (st : list Disk * mt19937 * Z)
  : list Disk * mt19937 * Z :=
  let '(ds, rng, collisions_this_frame) := st in
  match nth_error ds i, nth_error ds j with
  | Some a, Some b =>
      let '(hit, (a', b'), rng') := handle_disk_collision a b rng in
      (set_nth j b' (set_nth i a' ds), rng',
       if hit then (collisions_this_frame + 1)%Z else collisions_this_frame)
  | _, _ => st
  end.

(** The two nested loops over [i < j < DISK_COUNT]. *)
Definition collide_all (ds : list Disk) (rng : mt19937)
  : list Disk * mt19937 * Z :=
  fold_left
    (fun st i =>
       fold_left (fun st j => collide_pair i j st)
         (seq (S i) (DISK_COUNT - S i)) st)
    (seq 0 DISK_COUNT) (ds, rng, 0%Z).

(** The throttled sampling at the end of the simulation update. *)
Definition maybe_sample (dt : float) (s : Sim) : Sim :=
  let t := (time_since_plot s + dt)%fl in
  if ((t >=? Fin (1 / 10))%fl && (collision_count s >? 0)%Z)%bool
  then mkSim (disks s) (collision_count s) (Fin 0)
         (update_plot (collision_count s) (disks s) (stats s))
         (g_speedFactor s) (rng s)
  else mkSim (disks s) (collision_count s) t (stats s) (g_speedFactor s) (rng s).

(** The simulation update of one frame. *)
Definition step (dt : float) (s : Sim) : Sim :=
  let ds := map (fun d => update_position (g_speedFactor s) d dt) (disks s) in
  let '(ds, rng', collisions_this_frame) := collide_all ds (rng s) in
  maybe_sample dt
    (mkSim ds (collision_count s + collisions_this_frame)%Z
       (time_since_plot s) (stats s) (g_speedFactor s) rng').

(** The states after each frame of a run, one [dt] per frame. *)
Fixpoint run (dts : list float) (s : Sim) : list Sim :=
  match dts with
  | [] => []
  | dt :: dts' => let s' := step dt s in s' :: run dts' s'
  end.

End Uniform.

(** ** The SDL program: independent trials, sampling on every collision *)

Module Matplot.

Definition WIDTH : Z := 800.
Definition HEIGHT : Z := 600.
Definition DISK_RADIUS : Z := 40.
Definition DISK_COUNT : nat := 6.
Definition MAX_COINS_PER_DISK : Z := 8.

Definition handle_disk_collision (d1 d2 : Disk) (rng : mt19937)
  : bool * (Disk * Disk) * mt19937 :=
  let dist := distance d1 d2 in
  if (dist <? of_int (radius d1 + radius d2))%fl then
    let (nx, ny) := normal d1 d2 dist in
    let (d1, d2) := elastic nx ny d1 d2 in
    let total_coins_d1 := coin_count d1 in
    let total_coins_d2 := coin_count d2 in
    let '(q1, q2, rng) :=
      independent_trials MAX_COINS_PER_DISK total_coins_d1 total_coins_d2
        (coin_count d1) (coin_count d2) rng in
    (true, (set_coins d1 q1, set_coins d2 q2), rng)
  else (false, (d1, d2), rng).

Definition update_position (disk : Disk) (dt : float) : Disk :=
  let x1 := (x disk + vx disk * dt)%fl in
  let y1 := (y disk + vy disk * dt)%fl in
  let r := radius disk in
  let (x2, vx2) := reflect x1 (vx disk) r (of_int WIDTH) (of_int (WIDTH - r)) in
  let (y2, vy2) := reflect y1 (vy disk) r (of_int HEIGHT) (of_int (HEIGHT - r)) in
  mkDisk x2 y2 vx2 vy2 r (coin_count disk).

Record Stats : Type := mkStats {
  cumulative_counts : list Z;
  xdata : list (list float);
  ydata : list (list float)
}.

Definition initial_stats : Stats :=
  mkStats (repeat 0%Z 9) (repeat [] 9) (repeat [] 9).

Definition histogram (disks : list Disk) : list Z :=
  fold_left (fun counts d => bump (coin_count d) counts) disks
    (repeat 0%Z 9).

(** The fraction of disks: [cumulative / (DISK_COUNT * collision_count)]. *)
Definition fraction (collision_count cumulative : Z) : float :=
  (of_int cumulative / of_int (Z.of_nat DISK_COUNT * collision_count))%fl.

Definition update_plot (collision_count : Z) (disks : list Disk) (st : Stats)
  : Stats :=
  let counts := histogram disks in
  let cumulative := zip_with Z.add (cumulative_counts st) counts in
  mkStats cumulative
    (map (fun series => series ++ [of_int collision_count]) (xdata st))
    (zip_with (fun series c => series ++ [fraction collision_count c])
       (ydata st) cumulative).

Record Sim : Type := mkSim {
  disks : list Disk;
  collision_count : Z;
  stats : Stats;
  rng : mt19937
}.

(** One iteration of the pair loop: a collision increments the counter and
    samples the population at once. *)
Definition collide_pair (i j : nat) (s : Sim) : Sim :=
  match nth_error (disks s) i, nth_error (disks s) j with
  | Some a, Some b =>
      let '(collided, (a', b'), rng') := handle_disk_collision a b (rng s) in
      let ds := set_nth j b' (set_nth i a' (disks s)) in
      if collided then
        let n := (collision_count s + 1)%Z in
        mkSim ds n (update_plot n ds (stats s)) rng'
      else mkSim ds (collision_count s) (stats s) rng'
  | _, _ => s
  end.

Definition step (dt : float) (s : Sim) : Sim :=
  let ds := map (fun d => update_position d dt) (disks s) in
  fold_left
    (fun st i =>
       fold_left (fun st j => collide_pair i j st)
         (seq (S i) (DISK_COUNT - S i)) st)
    (seq 0 DISK_COUNT)
    (mkSim ds (collision_count s) (stats s) (rng s)).

End Matplot.

(** ** The SFML program with the special case for empty disks *)

Module ZeroCase.

Definition MAX_COINS_PER_DISK : Z := 8.

(** [if (a.coin_count == 0 && b.coin_count > 0)]: on a successful flip one
    coin moves from [b] to [a]. *)
Definition give_one (qa qb : Z) (rng : mt19937) : Z * Z * mt19937 :=
  if ((qa =? 0)%Z && (qb >? 0)%Z)%bool then
    let (heads, rng) := coin_flip rng in
    if heads then ((qa + 1)%Z, (qb - 1)%Z, rng) else (qa, qb, rng)
  else (qa, qb, rng).

(** The coin-exchange block, on the two coin counts: the totals are read
    first, then the two special cases run, then the standard exchange flips
    the totals read at the start. *)
Definition exchange (q1 q2 : Z) (rng : mt19937) : Z * Z * mt19937 :=
  let total_coins_d1 := q1 in
  let total_coins_d2 := q2 in
  let '(q1, q2, rng) := give_one q1 q2 rng in
  let '(q2, q1, rng) := give_one q2 q1 rng in
  independent_trials MAX_COINS_PER_DISK total_coins_d1 total_coins_d2 q1 q2 rng.

Definition handle_disk_collision (d1 d2 : Disk) (rng : mt19937)
  : bool * (Disk * Disk) * mt19937 :=
  let dist := distance d1 d2 in
  if (dist <? of_int (radius d1 + radius d2))%fl then
    let (nx, ny) := normal d1 d2 dist in
    let (d1, d2) := elastic nx ny d1 d2 in
    let '(q1, q2, rng) := exchange (coin_count d1) (coin_count d2) rng in
    let (d1, d2) := overlap_fix nx ny dist (set_coins d1 q1) (set_coins d2 q2) in
    (true, (d1, d2), rng)
  else (false, (d1, d2), rng).

End ZeroCase.

(** ** Sample inputs *)

(** The engine whose every raw output is 0. *)
Definition zero_tape : mt19937 := mkRng (fun _ => 0%Z) 0.

(** Two overlapping disks 30 apart, and a third one on the centre of the
    first.  The coins are those of the first two disks at the start of a
    run of the first program: all 25 on the first. *)
Definition disk_a : Disk := mkDisk (Fin 100) (Fin 100) (Fin 3) (Fin 0) 20 25.
Definition disk_b : Disk := mkDisk (Fin 130) (Fin 100) (Fin (-1)) (Fin 2) 20 0.

(** The first two disks of the population of the 6-disk programs, which
    starts from the distribution 8, 0, 0, 0, 0, 0 with radius 40. *)
Definition disk_p : Disk := mkDisk (Fin 100) (Fin 100) (Fin 3) (Fin 0) 40 8.
Definition disk_q : Disk := mkDisk (Fin 130) (Fin 100) (Fin (-1)) (Fin 2) 40 0.

(** A population of the SDL program in which the first two disks overlap,
    at the start of a run: no collision counted, nothing sampled. *)
Definition sdl_population : list Disk :=
  [ disk_p;
    mkDisk (Fin 130) (Fin 100) (Fin (-1)) (Fin 0) 40 0;
    mkDisk (Fin 500) (Fin 100) (Fin 10) (Fin 5) 40 0;
    mkDisk (Fin 300) (Fin 300) (Fin (-7)) (Fin 1) 40 0;
    mkDisk (Fin 500) (Fin 300) (Fin 2) (Fin (-4)) 40 0;
    mkDisk (Fin 700) (Fin 300) (Fin 0) (Fin 6) 40 0 ].

Definition sdl_start : Matplot.Sim :=
  Matplot.mkSim sdl_population 0 Matplot.initial_stats zero_tape.

(** A population of the first program: the two overlapping sample disks and
    18 empty disks at rest on two rows. *)
Definition sfml_population : list Disk :=
  disk_a :: disk_b ::
  map (fun p => mkDisk (Fin (IZR (fst p))) (Fin (IZR (snd p))) (Fin 0) (Fin 0) 20 0)
    [ (200, 200); (260, 200); (320, 200); (380, 200); (440, 200); (500, 200);
      (560, 200); (620, 200); (680, 200);
      (200, 300); (260, 300); (320, 300); (380, 300); (440, 300); (500, 300);
      (560, 300); (620, 300); (680, 300) ]%Z.

(** A state of the first program: nothing counted or sampled yet, 0.05 s
    since the last attempt to sample. *)
Definition sfml_start : Uniform.Sim :=
  Uniform.mkSim sfml_population 0 (Fin (5 / 100)) Uniform.initial_stats
    (Fin 5) zero_tape.


(** ** Vocabulary of the statements *)

(** The centre distance of two disks at finite positions. *)
Definition gap (px1 py1 px2 py2 : R) : R :=
  sqrt ((px2 - px1) * (px2 - px1) + (py2 - py1) * (py2 - py1)).

(** Every coin count of a population lies in [0, cap]. *)
Definition coins_in_range (cap : Z) (ds : list Disk) : Prop :=
  Forall (fun d => (0 <= coin_count d <= cap)%Z) ds.

(** Two finite disks with centres apart and closer than the radii allow. *)
Definition resolvable (d1 d2 : Disk) (dist : R) : Prop :=
  finite_disk d1 /\ finite_disk d2 /\
  distance d1 d2 = Fin dist /\ 0 < dist < IZR (radius d1 + radius d2).

(** [grows s s']: the counter did not decrease from [s] to [s'] and every
    series of sample points got one point per collision counted between. *)
Definition grows (s s' : Matplot.Sim) : Prop :=
  (Matplot.collision_count s <= Matplot.collision_count s')%Z /\
  map (@length float) (Matplot.xdata (Matplot.stats s'))
  = map (Nat.add (Z.to_nat
                    (Matplot.collision_count s' - Matplot.collision_count s)))
      (map (@length float) (Matplot.xdata (Matplot.stats s))).



(** The population and the engine once [k] more disks have been placed,
    starting with disk [i]; nothing when one of those searches is exhausted. *)
Fixpoint placed_prefix (k i : nat) (disks : list Disk) (rng : mt19937)
  : option (list Disk * mt19937) :=
  match k with
  | O => Some (disks, rng)
  | S k' =>
      match Uniform.place_one i disks rng with
      | (None, _) => None
      | (Some disks, rng) => placed_prefix k' (S i) disks rng
      end
  end.

(** Every disk of the population was a valid position for the population
    before it. *)
Definition well_placed (ds : list Disk) : Prop :=
  forall n d, nth_error ds n = Some d ->
    Uniform.is_valid_position (firstn n ds) (x d) (y d) (radius d) = true.

(** ** Further code of the programs *)

(** The speed control of the SFML programs: the handling of one key press in
    the event loop of [main]. *)
Module Controls.





End Controls.

(** The placement loop of the programs without a position search: positions
    come from the C library [rand()], read as a second tape of outputs in
    [0, RAND_MAX]; velocities come from the engine. *)
Module RandPlacement.

Definition RAND_MAX : Z := 2147483647.

Record rand_state : Type := mkRand { rand_tape : nat -> Z; rand_cursor : nat }.

Definition rand (s : rand_state) : Z * rand_state :=
  ((rand_tape s (rand_cursor s) mod (RAND_MAX + 1))%Z,
   mkRand (rand_tape s) (S (rand_cursor s))).

(** [std::vector<int> distribution = {8, 0, 0, 0, 0, 0}]. *)
Definition distribution : list Z := [8; 0; 0; 0; 0; 0]%Z.

(** The loop [for (int i = 0; i < DISK_COUNT; i++)] of the SDL [main] over
    the entries of [distribution] still to use: the position of disk [i] is
    [DISK_RADIUS + rand() % (WIDTH - 2*DISK_RADIUS)] and the like for [y]. *)
Fixpoint create_disks (coins : list Z) (rs : rand_state) (rng : mt19937)
  : list Disk * rand_state * mt19937 :=
  match coins with
  | [] => ([], rs, rng)
  | q :: coins' =>
      let (rx, rs) := rand rs in
      let px := of_int (Matplot.DISK_RADIUS
                        + Z.rem rx (Matplot.WIDTH - 2 * Matplot.DISK_RADIUS)) in
      let (ry, rs) := rand rs in
      let py := of_int (Matplot.DISK_RADIUS
                        + Z.rem ry (Matplot.HEIGHT - 2 * Matplot.DISK_RADIUS)) in
      let (wx, rng) := uniform_real (Fin (-200)) (Fin 200) rng in
      let (wy, rng) := uniform_real (Fin (-200)) (Fin 200) rng in
      let '(rest, rs, rng) := create_disks coins' rs rng in
      (mkDisk px py wx wy Matplot.DISK_RADIUS q :: rest, rs, rng)
  end.

End RandPlacement.

(** The two scale functions of [draw_line_graph] in the first program, which
    map a sample point to a pixel of the chart region. *)
Module Chart.

Definition CHART_HEIGHT : float := Fin 200.
Definition chartX : float := Fin 0.
Definition chartY : float := Uniform.CHART_TOP.
Definition chartWidth : float := of_int Uniform.WIDTH.
Definition chartHt : float := CHART_HEIGHT.

Definition scaleY (val : float) : float :=
  let val :=
    if (val >? of_int (Z.of_nat Uniform.DISK_COUNT))%fl
    then of_int (Z.of_nat Uniform.DISK_COUNT) else val in
  let proportion := (val / of_int (Z.of_nat Uniform.DISK_COUNT))%fl in
  (chartY + chartHt - proportion * chartHt)%fl.

Definition scaleX (collision_count : Z) (xVal : float) : float :=
  if (collision_count =? 0)%Z then chartX
  else (chartX + xVal / of_int collision_count * chartWidth)%fl.

End Chart.

(** ** Further vocabulary *)

(** The coins of a population. *)
Definition total_coins (ds : list Disk) : Z :=
  fold_right (fun d acc => (coin_count d + acc)%Z) 0%Z ds.

(** The number of disks of a population that hold [k] coins. *)
Definition holders (k : Z) (ds : list Disk) : nat :=
  length (filter (fun d => (coin_count d =? k)%Z) ds).

(** A finite disk of radius [r] inside the rectangle [0, w] x [0, h]. *)
Definition inside (w h : R) (d : Disk) : Prop :=
  exists px py wx wy,
    d = mkDisk (Fin px) (Fin py) (Fin wx) (Fin wy) (radius d) (coin_count d) /\
    IZR (radius d) <= px <= w - IZR (radius d) /\
    IZR (radius d) <= py <= h - IZR (radius d).

(** The number of pairs visited by the loops of a tick over the first
    indices [is_]. *)
Definition pairs_of (bound : nat) (is_ : list nat) : nat :=
  list_sum (map (fun i => bound - S i)%nat is_).

(** A state of the SDL program whose counts are in range and sum to [total]. *)
Definition fits (total : Z) (s : Matplot.Sim) : Prop :=
  coins_in_range Matplot.MAX_COINS_PER_DISK (Matplot.disks s) /\
  total_coins (Matplot.disks s) = total.

(** The sum of a vector of counts. *)
Definition sumZ (l : list Z) : Z := fold_right Z.add 0%Z l.

(** Every sample point of every series is a finite number. *)
Definition all_finite (series : list (list float)) : Prop :=
  Forall (Forall is_finite) series.

(** An engine whose draws put 20 disks on a grid of two rows: the first of
    the four draws of disk [i] selects the column, the second the row. *)
Definition grid_tape (n : nat) : Z :=
  match (n mod 4)%nat with
  | 0%nat => (Z.of_nat (2 * ((n / 4) mod 10)) * 134217728)%Z
  | 1%nat => (Z.of_nat ((n / 4) / 10) * 2147483648)%Z
  | _ => 0%Z
  end.

Definition grid_engine : mt19937 := mkRng grid_tape 0.

(** A disk with a finite centre inside the rectangle [0, w] x [0, h],
    whatever its velocity. *)
Definition centre_inside (w h : R) (d : Disk) : Prop :=
  exists px py,
    x d = Fin px /\ y d = Fin py /\
    IZR (radius d) <= px <= w - IZR (radius d) /\
    IZR (radius d) <= py <= h - IZR (radius d).

(** ** Facts on the numeric model *)

Lemma flt_Fin (a b : R) : flt (Fin a) (Fin b) = true <-> a < b.
Proof.
  unfold flt. destruct (Rlt_dec a b); split; intros; try easy; lra.
Qed.

Lemma flt_Fin_false (a b : R) : flt (Fin a) (Fin b) = false <-> b <= a.
Proof.
  unfold flt. destruct (Rlt_dec a b); split; intros; try easy; lra.
Qed.

Lemma fge_Fin (a b : R) : fge (Fin a) (Fin b) = true <-> b <= a.
Proof.
  unfold fge. destruct (Rle_dec b a); split; intros; try easy; lra.
Qed.

Lemma fdiv_Fin (a b : R) : b <> 0 -> fdiv (Fin a) (Fin b) = Fin (a / b).
Proof.
  intros Hb. unfold fdiv. destruct (Req_dec_T b 0); [contradiction | reflexivity].
Qed.

Lemma fdiv_zero (a : float) : fdiv a (Fin 0) = NaN.
Proof.
  destruct a; simpl; [destruct (Req_dec_T 0 0); [reflexivity | lra] | reflexivity].
Qed.

Lemma is_finite_inv (a : float) : is_finite a -> exists r, a = Fin r.
Proof. destruct a; [eauto | contradiction]. Qed.

(** A finite disk is a record of real numbers. *)
Lemma finite_disk_inv (d : Disk) :
  finite_disk d ->
  exists px py wx wy,
    d = mkDisk (Fin px) (Fin py) (Fin wx) (Fin wy) (radius d) (coin_count d).
Proof.
  destruct d as [[px|] [py|] [wx|] [wy|] r q]; unfold finite_disk; simpl;
    intros (H1 & H2 & H3 & H4); try contradiction.
  exists px, py, wx, wy. reflexivity.
Qed.

Lemma distance_Fin px1 py1 wx1 wy1 r1 q1 px2 py2 wx2 wy2 r2 q2 :
  distance (mkDisk (Fin px1) (Fin py1) wx1 wy1 r1 q1)
           (mkDisk (Fin px2) (Fin py2) wx2 wy2 r2 q2)
  = Fin (gap px1 py1 px2 py2).
Proof. reflexivity. Qed.

Lemma gap_sqr px1 py1 px2 py2 :
  gap px1 py1 px2 py2 * gap px1 py1 px2 py2
  = (px2 - px1) * (px2 - px1) + (py2 - py1) * (py2 - py1).
Proof.
  unfold gap. apply sqrt_sqrt.
  pose proof (Rle_0_sqr (px2 - px1)). pose proof (Rle_0_sqr (py2 - py1)).
  unfold Rsqr in *. lra.
Qed.

Lemma gap_nonneg px1 py1 px2 py2 : 0 <= gap px1 py1 px2 py2.
Proof. unfold gap. apply sqrt_pos. Qed.

(** The distance is zero exactly for coincident centres. *)
Lemma gap_zero px1 py1 px2 py2 :
  gap px1 py1 px2 py2 = 0 <-> px2 = px1 /\ py2 = py1.
Proof.
  split.
  - intros H. pose proof (gap_sqr px1 py1 px2 py2) as Hs. rewrite H in Hs.
    pose proof (Rle_0_sqr (px2 - px1)) as Px.
    pose proof (Rle_0_sqr (py2 - py1)) as Py. unfold Rsqr in Px, Py.
    assert (Hx : (px2 - px1) * (px2 - px1) = 0) by lra.
    assert (Hy : (py2 - py1) * (py2 - py1) = 0) by lra.
    apply Rsqr_eq_0 in Hx. apply Rsqr_eq_0 in Hy. split; lra.
  - intros [-> ->]. unfold gap.
    replace ((px1 - px1) * (px1 - px1) + (py1 - py1) * (py1 - py1)) with 0 by ring.
    apply sqrt_0.
Qed.

(** Centres on one horizontal line. *)
Lemma gap_horizontal (a b h : R) : a <= b -> gap a h b h = b - a.
Proof.
  intros Hab. unfold gap.
  replace ((b - a) * (b - a) + (h - h) * (h - h)) with ((b - a) * (b - a)) by ring.
  apply sqrt_square. lra.
Qed.

(** ** The uniform redistribution *)

Module UniformFacts.
Import Uniform.

Lemma redistribution_loop_In fuel : forall start total p,
  In p (redistribution_loop fuel start total) ->
  (fst p + snd p = total /\ start <= fst p < start + Z.of_nat fuel /\
   fst p <= MAX_COINS_PER_DISK /\ snd p <= MAX_COINS_PER_DISK)%Z.
Proof.
  induction fuel as [|fuel IH]; intros start total p Hin; [contradiction|].
  cbn [redistribution_loop] in Hin.
  destruct ((start <=? MAX_COINS_PER_DISK) &&
            (total - start <=? MAX_COINS_PER_DISK))%Z eqn:E.
  - destruct Hin as [<- | Hin].
    + apply andb_true_iff in E as [E1 E2].
      apply Z.leb_le in E1. apply Z.leb_le in E2. simpl. lia.
    + apply IH in Hin. lia.
  - apply IH in Hin. lia.
Qed.

Lemma possible_redistributions_In total p :
  In p (possible_redistributions total) ->
  (fst p + snd p = total /\ 0 <= fst p <= MAX_COINS_PER_DISK /\
   0 <= snd p <= MAX_COINS_PER_DISK)%Z.
Proof.
  intros Hin. apply redistribution_loop_In in Hin. lia.
Qed.

Lemma uniform_int_lt n g : (0 < n)%nat -> (fst (uniform_int n g) < n)%nat.
Proof.
  intros Hn. unfold uniform_int, rng_next. simpl.
  pose proof (Z.mod_pos_bound (tape g (cursor g) mod raw_range) (Z.of_nat n)).
  lia.
Qed.

Example possible_redistributions_of_2 :
  possible_redistributions 2 = [(0, 2); (1, 1); (2, 0)]%Z.
Proof. reflexivity. Qed.

Example possible_redistributions_of_49 :
  possible_redistributions 49 = [(24, 25); (25, 24)]%Z.
Proof. reflexivity. Qed.

Example possible_redistributions_of_51 : possible_redistributions 51 = [].
Proof. reflexivity. Qed.

Example redistribute_on_zero_tape :
  fst (redistribute 25 0 zero_tape) = (0, 25)%Z.
Proof. reflexivity. Qed.

(** The exchange block returns a split of the total that stays in range. *)
Lemma redistribute_spec q1 q2 g :
  (fst (fst (redistribute q1 q2 g)) + snd (fst (redistribute q1 q2 g))
   = q1 + q2)%Z /\
  ((0 <= q1 <= MAX_COINS_PER_DISK)%Z -> (0 <= q2 <= MAX_COINS_PER_DISK)%Z ->
   (0 <= fst (fst (redistribute q1 q2 g)) <= MAX_COINS_PER_DISK /\
    0 <= snd (fst (redistribute q1 q2 g)) <= MAX_COINS_PER_DISK)%Z).
Proof.
  unfold redistribute.
  destruct (possible_redistributions (q1 + q2)) as [|p l] eqn:E.
  - simpl. split; intros; lia.
  - destruct (uniform_int (length (p :: l)) g) as [idx g'] eqn:U.
    assert (Hidx : (idx < length (p :: l))%nat).
    { change idx with (fst (idx, g')). rewrite <- U.
      apply uniform_int_lt. simpl. lia. }
    pose proof (nth_In (p :: l) (0%Z, 0%Z) Hidx) as Hin.
    assert (Hall : forall q, In q (p :: l) ->
              In q (possible_redistributions (q1 + q2)))
      by (rewrite E; trivial).
    apply Hall, possible_redistributions_In in Hin.
    cbn [fst snd]. split; intros; lia.
Qed.

(** Symbolic execution of a collision of two finite disks whose centres are
    apart and closer than the sum of the radii. *)
Lemma collision_finite px1 py1 wx1 wy1 r1 q1 px2 py2 wx2 wy2 r2 q2 rng :
  let g := gap px1 py1 px2 py2 in
  0 < g < IZR (r1 + r2) ->
  let nx := (px2 - px1) / g in
  let ny := (py2 - py1) / g in
  let v1n := wx1 * nx + wy1 * ny in
  let v2n := wx2 * nx + wy2 * ny in
  let half := (IZR (r1 + r2) - g) * (5 / 10) in
  handle_disk_collision
    (mkDisk (Fin px1) (Fin py1) (Fin wx1) (Fin wy1) r1 q1)
    (mkDisk (Fin px2) (Fin py2) (Fin wx2) (Fin wy2) r2 q2) rng
  = (true,
     (mkDisk (Fin (px1 - nx * half)) (Fin (py1 - ny * half))
             (Fin (wx1 + (v2n - v1n) * nx)) (Fin (wy1 + (v2n - v1n) * ny))
             r1 (fst (fst (redistribute q1 q2 rng))),
      mkDisk (Fin (px2 + nx * half)) (Fin (py2 + ny * half))
             (Fin (wx2 + (v1n - v2n) * nx)) (Fin (wy2 + (v1n - v2n) * ny))
             r2 (snd (fst (redistribute q1 q2 rng)))),
     snd (redistribute q1 q2 rng)).
Proof.
  intros g Hg nx ny v1n v2n half.
  unfold handle_disk_collision. rewrite distance_Fin. fold g.
  cbn [radius]. unfold of_int.
  assert (Hlt : flt (Fin g) (Fin (IZR (r1 + r2))) = true) by (apply flt_Fin; lra).
  rewrite Hlt. unfold normal. cbn [x y fsub].
  rewrite !fdiv_Fin by lra. fold nx ny.
  unfold elastic, along, set_vel.
  cbn [vx vy fmul fadd fsub x y radius coin_count].
  fold v1n v2n.
  destruct (redistribute q1 q2 rng) as [[c1 c2] rng'].
  unfold overlap_fix, set_coins, set_pos, fgt, of_int.
  cbn [radius x y vx vy coin_count fsub fmul fadd fst snd].
  assert (Hov : flt (Fin 0) (Fin (IZR (r1 + r2) - g)) = true) by (apply flt_Fin; lra).
  rewrite Hov. fold half. reflexivity.
Qed.

End UniformFacts.

(** ** Geometry of a resolved collision *)

Module CollisionFacts.
Import Uniform UniformFacts.


Lemma sample_resolvable : resolvable disk_a disk_b 30.
Proof.
  unfold resolvable, finite_disk, disk_a, disk_b. cbn [x y vx vy radius is_finite].
  repeat split; try lra.
  - rewrite distance_Fin, gap_horizontal by lra. f_equal. lra.
  - change (20 + 20)%Z with 40%Z. lra.
Qed.








(** *** Coincident centres *)






End CollisionFacts.

(** ** Coin counts *)

Module CoinFacts.
Import UniformFacts.

(** The coin counts after a call of the first program's resolver. *)
Lemma uniform_coin_counts d1 d2 rng :
  let r := Uniform.handle_disk_collision d1 d2 rng in
  (coin_count (fst (snd (fst r))), coin_count (snd (snd (fst r))))
  = if fst (fst r)
    then fst (Uniform.redistribute (coin_count d1) (coin_count d2) rng)
    else (coin_count d1, coin_count d2).
Proof.
  unfold Uniform.handle_disk_collision.
  destruct (flt (distance d1 d2) (of_int (radius d1 + radius d2))); [|reflexivity].
  destruct (normal d1 d2 (distance d1 d2)) as [nx ny].
  unfold elastic, set_vel. cbn [coin_count].
  destruct (Uniform.redistribute (coin_count d1) (coin_count d2) rng)
    as [[c1 c2] rng'].
  unfold overlap_fix.
  match goal with |- context [if ?b then _ else _] => destruct b end; reflexivity.
Qed.

(** The uniform redistribution keeps the total of the pair and the range. *)
Lemma uniform_handle_in_range d1 d2 rng :
  (0 <= coin_count d1 <= Uniform.MAX_COINS_PER_DISK)%Z ->
  (0 <= coin_count d2 <= Uniform.MAX_COINS_PER_DISK)%Z ->
  let '(_, (e1, e2), _) := Uniform.handle_disk_collision d1 d2 rng in
  (coin_count e1 + coin_count e2 = coin_count d1 + coin_count d2)%Z /\
  (0 <= coin_count e1 <= Uniform.MAX_COINS_PER_DISK)%Z /\
  (0 <= coin_count e2 <= Uniform.MAX_COINS_PER_DISK)%Z.
Proof.
  intros H1 H2.
  pose proof (uniform_coin_counts d1 d2 rng) as Hc. cbv zeta in Hc.
  pose proof (redistribute_spec (coin_count d1) (coin_count d2) rng) as [Hs Hr].
  specialize (Hr H1 H2).
  destruct (Uniform.handle_disk_collision d1 d2 rng) as [[hit [e1 e2]] rng'].
  cbn [fst snd] in Hc.
  destruct (Uniform.redistribute (coin_count d1) (coin_count d2) rng)
    as [[c1 c2] g'].
  cbn [fst snd] in *.
  destruct hit; injection Hc as -> ->; lia.
Qed.

(** C2: under the uniform redistribution a call of the resolver on two disks
    with coin counts in [0, MAX_COINS_PER_DISK], and every resolved collision
    among them, leaves the sum of the two counts as it was, with both new
    counts in range without any clamp. *)
Theorem uniform_conserves_pair_total d1 d2 rng :
  (0 <= coin_count d1 <= Uniform.MAX_COINS_PER_DISK)%Z ->
  (0 <= coin_count d2 <= Uniform.MAX_COINS_PER_DISK)%Z ->
  let '(_, (e1, e2), _) := Uniform.handle_disk_collision d1 d2 rng in
  (coin_count e1 + coin_count e2 = coin_count d1 + coin_count d2)%Z /\
  (0 <= coin_count e1 <= Uniform.MAX_COINS_PER_DISK)%Z /\
  (0 <= coin_count e2 <= Uniform.MAX_COINS_PER_DISK)%Z.
Proof. exact (uniform_handle_in_range d1 d2 rng). Qed.

Lemma uniform_conserves_pair_total_witness :
  ((0 <= coin_count disk_a <= Uniform.MAX_COINS_PER_DISK)%Z /\
   (0 <= coin_count disk_b <= Uniform.MAX_COINS_PER_DISK)%Z) /\
  let '(_, (e1, e2), _) := Uniform.handle_disk_collision disk_a disk_b zero_tape in
  (coin_count e1 + coin_count e2 = coin_count disk_a + coin_count disk_b)%Z /\
  (0 <= coin_count e1 <= Uniform.MAX_COINS_PER_DISK)%Z /\
  (0 <= coin_count e2 <= Uniform.MAX_COINS_PER_DISK)%Z.
Proof.
  assert (Ha : (0 <= coin_count disk_a <= Uniform.MAX_COINS_PER_DISK)%Z)
    by (simpl; unfold Uniform.MAX_COINS_PER_DISK; lia).
  assert (Hb : (0 <= coin_count disk_b <= Uniform.MAX_COINS_PER_DISK)%Z)
    by (simpl; unfold Uniform.MAX_COINS_PER_DISK; lia).
  split; [split; assumption|].
  exact (uniform_conserves_pair_total disk_a disk_b zero_tape Ha Hb).
Defined.

(** *** Independent trials *)

Lemma count_flips_bounds n : forall moved g,
  (moved <= fst (count_flips n moved g) <= moved + Z.of_nat n)%Z.
Proof.
  induction n as [|n IH]; intros moved g.
  - simpl. lia.
  - cbn [count_flips]. destruct (coin_flip g) as [heads g'].
    specialize (IH (if heads then moved + 1 else moved)%Z g').
    destruct heads; lia.
Qed.

(** When the flips are those of the coins held, as in the SDL program, the
    counts stay in range. *)
Lemma independent_trials_in_range cap q1 q2 g :
  (0 <= q1 <= cap)%Z -> (0 <= q2 <= cap)%Z ->
  let '(c1, c2, _) := independent_trials cap q1 q2 q1 q2 g in
  (0 <= c1 <= cap)%Z /\ (0 <= c2 <= cap)%Z.
Proof.
  intros H1 H2. unfold independent_trials.
  pose proof (count_flips_bounds (Z.to_nat q1) 0 g) as B1.
  destruct (count_flips (Z.to_nat q1) 0 g) as [to_d2 g1]. cbn [fst] in B1.
  pose proof (count_flips_bounds (Z.to_nat q2) 0 g1) as B2.
  destruct (count_flips (Z.to_nat q2) 0 g1) as [to_d1 g2]. cbn [fst] in B2.
  unfold clamp_max.
  destruct (q1 - to_d2 + to_d1 >? cap)%Z eqn:E1;
    destruct (q2 + to_d2 - to_d1 >? cap)%Z eqn:E2;
    rewrite ?Z.gtb_ltb, ?Z.ltb_lt, ?Z.ltb_ge in *; lia.
Qed.

Lemma matplot_keeps_coin_range d1 d2 rng :
  (0 <= coin_count d1 <= Matplot.MAX_COINS_PER_DISK)%Z ->
  (0 <= coin_count d2 <= Matplot.MAX_COINS_PER_DISK)%Z ->
  let '(_, (e1, e2), _) := Matplot.handle_disk_collision d1 d2 rng in
  (0 <= coin_count e1 <= Matplot.MAX_COINS_PER_DISK)%Z /\
  (0 <= coin_count e2 <= Matplot.MAX_COINS_PER_DISK)%Z.
Proof.
  intros H1 H2. unfold Matplot.handle_disk_collision.
  destruct (flt (distance d1 d2) (of_int (radius d1 + radius d2))); [|tauto].
  destruct (normal d1 d2 (distance d1 d2)) as [nx ny].
  unfold elastic, set_vel. cbn [coin_count].
  pose proof (independent_trials_in_range Matplot.MAX_COINS_PER_DISK
                (coin_count d1) (coin_count d2) rng H1 H2) as Hr.
  destruct (independent_trials Matplot.MAX_COINS_PER_DISK (coin_count d1)
              (coin_count d2) (coin_count d1) (coin_count d2) rng)
    as [[c1 c2] g']. exact Hr.
Qed.

(** *** The range of the coin counts over whole ticks *)

Lemma fold_left_invariant {A B : Type} (P : A -> Prop) (f : A -> B -> A)
  (l : list B) :
  (forall a b, P a -> P (f a b)) -> forall a, P a -> P (fold_left f l a).
Proof.
  intros Hf. induction l as [|b l IH]; intros a Ha; [exact Ha|].
  cbn [fold_left]. apply IH, Hf, Ha.
Qed.

Lemma set_nth_Forall {A : Type} (P : A -> Prop) (a : A) (l : list A) :
  P a -> Forall P l -> forall i, Forall P (set_nth i a l).
Proof.
  intros Ha Hl. induction Hl as [|h t Hh Ht IH]; intros i.
  - destruct i; constructor.
  - destruct i; cbn [set_nth]; constructor; auto.
Qed.

Lemma nth_error_Forall {A : Type} (P : A -> Prop) (l : list A) i a :
  Forall P l -> nth_error l i = Some a -> P a.
Proof.
  intros Hl Hn. apply nth_error_In in Hn.
  rewrite Forall_forall in Hl. apply Hl, Hn.
Qed.

Lemma uniform_collide_pair_in_range i j st :
  coins_in_range Uniform.MAX_COINS_PER_DISK (fst (fst st)) ->
  coins_in_range Uniform.MAX_COINS_PER_DISK
    (fst (fst (Uniform.collide_pair i j st))).
Proof.
  destruct st as [[ds g] n]. cbn [fst]. intros H.
  unfold Uniform.collide_pair.
  destruct (nth_error ds i) as [a|] eqn:Ea; [|exact H].
  destruct (nth_error ds j) as [b|] eqn:Eb; [|exact H].
  pose proof (uniform_handle_in_range a b g
                (nth_error_Forall _ _ _ _ H Ea)
                (nth_error_Forall _ _ _ _ H Eb)) as Hr.
  destruct (Uniform.handle_disk_collision a b g) as [[hit [a' b']] g'].
  cbn [fst]. destruct Hr as (_ & Ha & Hb).
  apply set_nth_Forall; [exact Hb|]. apply set_nth_Forall; assumption.
Qed.

(** In the first program the coin counts stay in range over a tick. *)
Lemma uniform_step_in_range dt s :
  coins_in_range Uniform.MAX_COINS_PER_DISK (Uniform.disks s) ->
  coins_in_range Uniform.MAX_COINS_PER_DISK (Uniform.disks (Uniform.step dt s)).
Proof.
  intros H. unfold Uniform.step.
  assert (Hm : coins_in_range Uniform.MAX_COINS_PER_DISK
                 (map (fun d => Uniform.update_position (Uniform.g_speedFactor s) d dt)
                    (Uniform.disks s))).
  { unfold coins_in_range in *. rewrite Forall_map.
    eapply Forall_impl; [|exact H]. intros d Hd.
    unfold Uniform.update_position.
    destruct (reflect _ _ _ _ _) as [x2 vx2].
    destruct (reflect _ _ _ _ _) as [y2 vy2]. exact Hd. }
  assert (Hc : coins_in_range Uniform.MAX_COINS_PER_DISK
                 (fst (fst (Uniform.collide_all
                              (map (fun d => Uniform.update_position
                                               (Uniform.g_speedFactor s) d dt)
                                 (Uniform.disks s)) (Uniform.rng s))))).
  { unfold Uniform.collide_all.
    apply (fold_left_invariant
             (fun st => coins_in_range Uniform.MAX_COINS_PER_DISK (fst (fst st))));
      [|exact Hm].
    intros st i Hst.
    apply (fold_left_invariant
             (fun st => coins_in_range Uniform.MAX_COINS_PER_DISK (fst (fst st))));
      [|exact Hst].
    intros st' j Hst'. apply uniform_collide_pair_in_range, Hst'. }
  destruct (Uniform.collide_all _ _) as [[ds g] n]. cbn [fst] in Hc.
  unfold Uniform.maybe_sample.
  match goal with |- context [if ?b then _ else _] => destruct b end; exact Hc.
Qed.

(** The same for the SDL program. *)
Lemma matplot_step_in_range dt s :
  coins_in_range Matplot.MAX_COINS_PER_DISK (Matplot.disks s) ->
  coins_in_range Matplot.MAX_COINS_PER_DISK (Matplot.disks (Matplot.step dt s)).
Proof.
  intros H. unfold Matplot.step.
  apply (fold_left_invariant
           (fun st => coins_in_range Matplot.MAX_COINS_PER_DISK (Matplot.disks st))).
  - intros st i Hst.
    apply (fold_left_invariant
             (fun st => coins_in_range Matplot.MAX_COINS_PER_DISK (Matplot.disks st)));
      [|exact Hst].
    clear. intros st j Hst. unfold Matplot.collide_pair.
    destruct (nth_error (Matplot.disks st) i) as [a|] eqn:Ea; [|exact Hst].
    destruct (nth_error (Matplot.disks st) j) as [b|] eqn:Eb; [|exact Hst].
    pose proof (matplot_keeps_coin_range a b (Matplot.rng st)
                  (nth_error_Forall _ _ _ _ Hst Ea)
                  (nth_error_Forall _ _ _ _ Hst Eb)) as Hr.
    destruct (Matplot.handle_disk_collision a b (Matplot.rng st))
      as [[hit [a' b']] g'].
    destruct Hr as (Ha & Hb).
    destruct hit; cbn [Matplot.disks];
      (apply set_nth_Forall; [exact Hb|]; apply set_nth_Forall; assumption).
  - cbn [Matplot.disks]. unfold coins_in_range in *. rewrite Forall_map.
    eapply Forall_impl; [|exact H]. intros d Hd.
    unfold Matplot.update_position.
    destruct (reflect _ _ _ _ _) as [x2 vx2].
    destruct (reflect _ _ _ _ _) as [y2 vy2]. exact Hd.
Qed.

(** *** The special case for empty disks *)

Lemma zero_case_collision_finite px1 py1 wx1 wy1 r1 q1 px2 py2 wx2 wy2 r2 q2 rng :
  0 < gap px1 py1 px2 py2 < IZR (r1 + r2) ->
  let r := ZeroCase.handle_disk_collision
             (mkDisk (Fin px1) (Fin py1) (Fin wx1) (Fin wy1) r1 q1)
             (mkDisk (Fin px2) (Fin py2) (Fin wx2) (Fin wy2) r2 q2) rng in
  fst (fst r) = true /\
  (coin_count (fst (snd (fst r))), coin_count (snd (snd (fst r))))
  = fst (ZeroCase.exchange q1 q2 rng).
Proof.
  intros Hg. unfold ZeroCase.handle_disk_collision. rewrite distance_Fin.
  cbn [radius]. unfold of_int.
  assert (Hlt : flt (Fin (gap px1 py1 px2 py2)) (Fin (IZR (r1 + r2))) = true)
    by (apply flt_Fin; lra).
  rewrite Hlt. unfold normal. cbn [x y fsub]. rewrite !fdiv_Fin by lra.
  unfold elastic, set_vel. cbn [coin_count].
  destruct (ZeroCase.exchange q1 q2 rng) as [[c1 c2] rng'].
  unfold overlap_fix.
  match goal with |- context [if ?b then _ else _] => destruct b end;
    split; reflexivity.
Qed.

Example zero_case_without_special_case :
  fst (ZeroCase.exchange 5 3 zero_tape) = (3, 5)%Z.
Proof. reflexivity. Qed.

Example zero_case_empty_first_disk :
  fst (ZeroCase.exchange 0 8 zero_tape) = (8, (-1))%Z.
Proof. reflexivity. Qed.

(** C1 fails in the program with the special case for empty disks: on the
    first collision of a run, between the disk holding the 8 coins and an
    empty one, with every flip a success, the special case moves one coin
    off the first disk and the standard exchange then moves the 8 coins
    counted before: the first disk is left with -1 coins. *)
Theorem zero_case_leaves_negative_count :
  distance disk_p disk_q = Fin 30 /\
  ZeroCase.exchange 8 0 zero_tape = ((-1)%Z, 8%Z, mkRng (fun _ => 0%Z) 9) /\
  let '(hit, (e1, e2), _) :=
    ZeroCase.handle_disk_collision disk_p disk_q zero_tape in
  hit = true /\ coin_count e1 = (-1)%Z /\ coin_count e2 = 8%Z.
Proof.
  split; [|split; [reflexivity|]].
  - unfold disk_p, disk_q. rewrite distance_Fin, gap_horizontal by lra.
    f_equal. lra.
  - assert (Hg : 0 < gap 100 100 130 100 < IZR (40 + 40)).
    { rewrite gap_horizontal by lra. change (40 + 40)%Z with 80%Z. lra. }
    pose proof (zero_case_collision_finite 100 100 3 0 40 8 130 100 (-1) 2 40 0
                  zero_tape Hg) as Hc.
    cbv zeta in Hc. fold disk_p disk_q in Hc.
    destruct (ZeroCase.handle_disk_collision disk_p disk_q zero_tape)
      as [[hit [e1 e2]] rng'].
    cbn [fst snd] in Hc. destruct Hc as [-> Hc].
    change (fst (ZeroCase.exchange 8 0 zero_tape)) with ((-1)%Z, 8%Z) in Hc.
    injection Hc as -> ->. repeat split.
Qed.

End CoinFacts.

(** ** Kinematics *)

Module KinematicsFacts.

Lemma reflect_Fin (pos vel : R) (r : Z) (hi : R) (hi_minus_r : float) :
  reflect (Fin pos) (Fin vel) r (Fin hi) hi_minus_r
  = if Rlt_dec (pos - IZR r) 0 then (Fin (IZR r), Fin (- vel))
    else if Rlt_dec hi (pos + IZR r) then (hi_minus_r, Fin (- vel))
    else (Fin pos, Fin vel).
Proof.
  unfold reflect, fgt, flt, of_int. cbn [fsub fadd fneg].
  destruct (Rlt_dec (pos - IZR r) 0); [reflexivity|].
  destruct (Rlt_dec hi (pos + IZR r)); reflexivity.
Qed.



End KinematicsFacts.

(** ** Sampling *)

Module SamplingFacts.

(** The throttled sampling of the first program leaves the statistics alone
    below the interval and before the first collision. *)
Lemma maybe_sample_noop dt s t :
  (Uniform.time_since_plot s + dt)%fl = Fin t ->
  t < 1 / 10 \/ (Uniform.collision_count s <= 0)%Z ->
  Uniform.maybe_sample dt s
  = Uniform.mkSim (Uniform.disks s) (Uniform.collision_count s) (Fin t)
      (Uniform.stats s) (Uniform.g_speedFactor s) (Uniform.rng s).
Proof.
  intros Ht Hc. unfold Uniform.maybe_sample. rewrite Ht.
  destruct Hc as [Hc|Hc].
  - assert (E : fge (Fin t) (Fin (1 / 10)) = false).
    { unfold fge. destruct (Rle_dec (1 / 10) t); [lra | reflexivity]. }
    rewrite E. reflexivity.
  - assert (E : (Uniform.collision_count s >? 0)%Z = false).
    { rewrite Z.gtb_ltb. apply Z.ltb_ge. exact Hc. }
    rewrite E, andb_false_r. reflexivity.
Qed.

(** When the interval is reached after a collision, the sample is taken. *)
Lemma maybe_sample_fires dt s t :
  (Uniform.time_since_plot s + dt)%fl = Fin t ->
  1 / 10 <= t -> (0 < Uniform.collision_count s)%Z ->
  Uniform.maybe_sample dt s
  = Uniform.mkSim (Uniform.disks s) (Uniform.collision_count s) (Fin 0)
      (Uniform.update_plot (Uniform.collision_count s) (Uniform.disks s)
         (Uniform.stats s))
      (Uniform.g_speedFactor s) (Uniform.rng s).
Proof.
  intros Ht Hi Hc. unfold Uniform.maybe_sample. rewrite Ht.
  assert (E : fge (Fin t) (Fin (1 / 10)) = true) by (apply fge_Fin; exact Hi).
  assert (E' : (Uniform.collision_count s >? 0)%Z = true).
  { rewrite Z.gtb_ltb. apply Z.ltb_lt. exact Hc. }
  rewrite E, E'. reflexivity.
Qed.

(** The fields of a step of the first program that sampling does not touch. *)
Lemma step_frame dt s :
  exists s0,
    Uniform.step dt s = Uniform.maybe_sample dt s0 /\
    Uniform.time_since_plot s0 = Uniform.time_since_plot s /\
    Uniform.stats s0 = Uniform.stats s /\
    Uniform.collision_count (Uniform.step dt s) = Uniform.collision_count s0.
Proof.
  unfold Uniform.step.
  destruct (Uniform.collide_all _ _) as [[ds rng'] n].
  eexists. split; [reflexivity|]. repeat split.
  unfold Uniform.maybe_sample.
  match goal with |- context [if ?b then _ else _] => destruct b end; reflexivity.
Qed.

(** *** The SDL program samples on every collision *)

Lemma grows_refl s : grows s s.
Proof.
  split; [lia|]. rewrite Z.sub_diag. simpl. symmetry. apply map_id.
Qed.

Lemma grows_trans s1 s2 s3 : grows s1 s2 -> grows s2 s3 -> grows s1 s3.
Proof.
  intros [H1 E1] [H2 E2]. split; [lia|].
  rewrite E2, E1, map_map. apply map_ext. intros n.
  replace (Matplot.collision_count s3 - Matplot.collision_count s1)%Z
    with ((Matplot.collision_count s3 - Matplot.collision_count s2)
          + (Matplot.collision_count s2 - Matplot.collision_count s1))%Z by lia.
  rewrite Z2Nat.inj_add by lia. lia.
Qed.

Lemma collide_pair_grows i j s : grows s (Matplot.collide_pair i j s).
Proof.
  unfold Matplot.collide_pair.
  destruct (nth_error (Matplot.disks s) i) as [a|]; [|apply grows_refl].
  destruct (nth_error (Matplot.disks s) j) as [b|]; [|apply grows_refl].
  destruct (Matplot.handle_disk_collision a b (Matplot.rng s))
    as [[collided [a' b']] rng'].
  destruct collided; split; cbn [Matplot.collision_count Matplot.stats]; try lia.
  - unfold Matplot.update_plot. cbn [Matplot.xdata].
    replace (Matplot.collision_count s + 1 - Matplot.collision_count s)%Z
      with 1%Z by lia.
    rewrite !map_map. apply map_ext. intros series.
    rewrite last_length. reflexivity.
  - rewrite Z.sub_diag. simpl. symmetry. apply map_id.
Qed.

Lemma pair_loop_grows i js : forall s,
  grows s (fold_left (fun st j => Matplot.collide_pair i j st) js s).
Proof.
  induction js as [|j js IH]; intros s; [apply grows_refl|].
  cbn [fold_left]. eapply grows_trans; [apply collide_pair_grows | apply IH].
Qed.

Lemma disk_loop_grows (bound : nat) is_ : forall s,
  grows s
    (fold_left
       (fun st i =>
          fold_left (fun st j => Matplot.collide_pair i j st)
            (seq (S i) (bound - S i)) st)
       is_ s).
Proof.
  induction is_ as [|i is_ IH]; intros s; [apply grows_refl|].
  cbn [fold_left]. eapply grows_trans; [apply pair_loop_grows | apply IH].
Qed.

(** A step of the SDL program appends to every series as many sample points
    as it counts collisions, whatever the time step. *)
Lemma matplot_step_grows dt s : grows s (Matplot.step dt s).
Proof.
  unfold Matplot.step.
  eapply grows_trans; [|apply disk_loop_grows].
  split; cbn [Matplot.collision_count Matplot.stats]; [lia|].
  rewrite Z.sub_diag. simpl. symmetry. apply map_id.
Qed.

(** The loops as their first pair followed by the others. *)
Lemma loop_first_pair (n : nat) (s : Matplot.Sim) :
  fold_left
    (fun st i =>
       fold_left (fun st j => Matplot.collide_pair i j st)
         (seq (S i) (S (S n) - S i)) st)
    (seq 0 (S (S n))) s
  = fold_left
      (fun st i =>
         fold_left (fun st j => Matplot.collide_pair i j st)
           (seq (S i) (S (S n) - S i)) st)
      (seq 1 (S n))
      (fold_left (fun st j => Matplot.collide_pair 0 j st) (seq 2 n)
         (Matplot.collide_pair 0 1 s)).
Proof. reflexivity. Qed.

(** Whatever the first pair of a step counts and samples stays. *)
Lemma matplot_step_after_first_pair dt s :
  grows
    (Matplot.collide_pair 0 1
       (Matplot.mkSim
          (map (fun d => Matplot.update_position d dt) (Matplot.disks s))
          (Matplot.collision_count s) (Matplot.stats s) (Matplot.rng s)))
    (Matplot.step dt s).
Proof.
  unfold Matplot.step, Matplot.DISK_COUNT.
  rewrite (loop_first_pair 4).
  eapply grows_trans; [apply pair_loop_grows | apply (disk_loop_grows 6)].
Qed.

Lemma matplot_update_inside px py wx wy r q t :
  0 <= px + wx * t - IZR r -> px + wx * t + IZR r <= IZR Matplot.WIDTH ->
  0 <= py + wy * t - IZR r -> py + wy * t + IZR r <= IZR Matplot.HEIGHT ->
  Matplot.update_position (mkDisk (Fin px) (Fin py) (Fin wx) (Fin wy) r q) (Fin t)
  = mkDisk (Fin (px + wx * t)) (Fin (py + wy * t)) (Fin wx) (Fin wy) r q.
Proof.
  intros X1 X2 Y1 Y2. unfold Matplot.update_position, of_int.
  cbn [x y vx vy radius coin_count fadd fmul].
  rewrite !KinematicsFacts.reflect_Fin.
  destruct (Rlt_dec (px + wx * t - IZR r) 0); [lra|].
  destruct (Rlt_dec (IZR Matplot.WIDTH) (px + wx * t + IZR r)); [lra|].
  destruct (Rlt_dec (py + wy * t - IZR r) 0); [lra|].
  destruct (Rlt_dec (IZR Matplot.HEIGHT) (py + wy * t + IZR r)); [lra|].
  reflexivity.
Qed.

Lemma matplot_collision_detected px1 py1 wx1 wy1 r1 q1 px2 py2 wx2 wy2 r2 q2 rng :
  0 < gap px1 py1 px2 py2 < IZR (r1 + r2) ->
  fst (fst (Matplot.handle_disk_collision
              (mkDisk (Fin px1) (Fin py1) wx1 wy1 r1 q1)
              (mkDisk (Fin px2) (Fin py2) wx2 wy2 r2 q2) rng)) = true.
Proof.
  intros Hg. unfold Matplot.handle_disk_collision. rewrite distance_Fin.
  cbn [radius]. unfold of_int.
  assert (Hlt : flt (Fin (gap px1 py1 px2 py2)) (Fin (IZR (r1 + r2))) = true)
    by (apply flt_Fin; lra).
  rewrite Hlt.
  destruct (normal _ _ _) as [nx ny]. destruct (elastic _ _ _ _) as [e1 e2].
  destruct (independent_trials _ _ _ _ _ _) as [[c1 c2] g]. reflexivity.
Qed.

(** The first pair of the sample population collides in a step of 0.01 s. *)
Lemma sdl_first_pair_counted :
  let dt := Fin (1 / 100) in
  Matplot.collision_count
    (Matplot.collide_pair 0 1
       (Matplot.mkSim
          (map (fun d => Matplot.update_position d dt) sdl_population)
          0 Matplot.initial_stats zero_tape)) = 1%Z.
Proof.
  intros dt. unfold Matplot.collide_pair, sdl_population, disk_p.
  cbn [Matplot.disks Matplot.rng map nth_error Matplot.collision_count
       Matplot.stats].
  unfold dt.
  rewrite !matplot_update_inside
    by (unfold Matplot.WIDTH, Matplot.HEIGHT; lra).
  pose proof (matplot_collision_detected
                (100 + 3 * (1 / 100)) (100 + 0 * (1 / 100)) (Fin 3) (Fin 0) 40 8
                (130 + -1 * (1 / 100)) (100 + 0 * (1 / 100)) (Fin (-1)) (Fin 0)
                40 0 zero_tape) as Hhit.
  destruct (Matplot.handle_disk_collision _ _ zero_tape)
    as [[collided [a' b']] rng'].
  cbn [fst] in Hhit. rewrite Hhit; [reflexivity|].
  rewrite gap_horizontal by lra. change (40 + 40)%Z with 80%Z. lra.
Qed.

(** C7 fails as stated for the SDL program: a step of 0.01 s, a tenth of the
    sampling interval, from a start with nothing sampled, counts a collision
    and appends a sample point to every series. *)
Lemma sdl_samples_below_interval :
  let s' := Matplot.step (Fin (1 / 100)) sdl_start in
  1 / 100 < 1 / 10 /\
  map (@length float) (Matplot.xdata (Matplot.stats sdl_start)) = repeat 0%nat 9 /\
  (1 <= Matplot.collision_count s')%Z /\
  exists n, (1 <= n)%nat /\
    map (@length float) (Matplot.xdata (Matplot.stats s')) = repeat n 9.
Proof.
  intros s'. split; [lra|]. split; [reflexivity|].
  pose proof (matplot_step_after_first_pair (Fin (1 / 100)) sdl_start) as [Hc _].
  change (Matplot.disks sdl_start) with sdl_population in Hc.
  change (Matplot.collision_count sdl_start) with 0%Z in Hc.
  change (Matplot.stats sdl_start) with Matplot.initial_stats in Hc.
  change (Matplot.rng sdl_start) with zero_tape in Hc.
  rewrite sdl_first_pair_counted in Hc. fold s' in Hc.
  split; [exact Hc|].
  pose proof (matplot_step_grows (Fin (1 / 100)) sdl_start) as [_ Hx].
  fold s' in Hx.
  change (Matplot.collision_count sdl_start) with 0%Z in Hx.
  change (map (@length float) (Matplot.xdata (Matplot.stats sdl_start)))
    with (repeat 0%nat 9) in Hx.
  exists (Z.to_nat (Matplot.collision_count s' - 0)). split; [lia|].
  rewrite Hx. cbn [repeat map]. rewrite !Nat.add_0_r. reflexivity.
Qed.

(** C7, as the code has it.  In the first program the throttled sampling
    step, and with it the whole simulation update, leaves the statistics
    state as it was whenever the time since the last sample stays below
    0.1 s or no collision has been counted yet.  The SDL program has no time
    throttle: every step appends to each series exactly one sample point per
    collision it counts, whatever the time step. *)
Theorem sampling_cadence :
  (forall dt s t,
      (Uniform.time_since_plot s + dt)%fl = Fin t ->
      t < 1 / 10 \/ (Uniform.collision_count s <= 0)%Z ->
      Uniform.stats (Uniform.maybe_sample dt s) = Uniform.stats s) /\
  (forall dt s t,
      (Uniform.time_since_plot s + dt)%fl = Fin t ->
      t < 1 / 10 \/ (Uniform.collision_count (Uniform.step dt s) <= 0)%Z ->
      Uniform.stats (Uniform.step dt s) = Uniform.stats s) /\
  (forall dt s,
      let s' := Matplot.step dt s in
      let collisions :=
        (Matplot.collision_count s' - Matplot.collision_count s)%Z in
      (0 <= collisions)%Z /\
      map (@length float) (Matplot.xdata (Matplot.stats s'))
      = map (Nat.add (Z.to_nat collisions))
          (map (@length float) (Matplot.xdata (Matplot.stats s)))).
Proof.
  split; [|split].
  - intros dt s t Ht Hc. rewrite (maybe_sample_noop dt s t Ht Hc). reflexivity.
  - intros dt s t Ht Hc.
    destruct (step_frame dt s) as (s0 & Hs & Htime & Hstats & Hcount).
    rewrite Hcount in Hc. rewrite Hs, <- Hstats.
    rewrite <- Htime in Ht.
    rewrite (maybe_sample_noop dt s0 t Ht Hc). reflexivity.
  - intros dt s s' collisions.
    destruct (matplot_step_grows dt s) as [Hc Hx]. fold s' in Hc, Hx.
    split; [unfold collisions; lia | exact Hx].
Qed.

Lemma sampling_cadence_witness :
  ((Uniform.time_since_plot sfml_start + Fin (1 / 100))%fl
   = Fin (5 / 100 + 1 / 100) /\
   (5 / 100 + 1 / 100 < 1 / 10 \/ (Uniform.collision_count sfml_start <= 0)%Z)) /\
  Uniform.stats (Uniform.maybe_sample (Fin (1 / 100)) sfml_start)
  = Uniform.stats sfml_start.
Proof.
  assert (Ht : (Uniform.time_since_plot sfml_start + Fin (1 / 100))%fl
               = Fin (5 / 100 + 1 / 100)) by reflexivity.
  assert (Hc : 5 / 100 + 1 / 100 < 1 / 10 \/
               (Uniform.collision_count sfml_start <= 0)%Z) by (left; lra).
  split; [split; assumption|].
  exact (proj1 sampling_cadence (Fin (1 / 100)) sfml_start _ Ht Hc).
Defined.

End SamplingFacts.

(** ** Determinism under a fixed seed *)

Module DeterminismFacts.

Lemma same_seed_refl g : same_seed g g.
Proof. split; reflexivity. Qed.














End DeterminismFacts.

(** ** Initial placement *)

Module PlacementFacts.
Import Uniform.

(** A position returned by the search is valid for the population. *)
Lemma find_valid_position_valid ds r n : forall rng px py rng',
  find_valid_position ds rng r n = (Some (px, py), rng') ->
  is_valid_position ds px py r = true.
Proof.
  induction n as [|n IH]; intros rng px py rng' H; cbn [find_valid_position] in H.
  - discriminate.
  - destruct (uniform_real (of_int r) (of_int (WIDTH - r)) rng) as [qx g1].
    destruct (uniform_real (of_int r) (CHART_TOP - of_int r)%fl g1) as [qy g2].
    destruct (is_valid_position ds qx qy r) eqn:E.
    + injection H as -> -> _. exact E.
    + eapply IH, H.
Qed.

(** The search does not look further than the first valid draw. *)
Lemma find_valid_position_first ds r n rng :
  let d1 := uniform_real (of_int r) (of_int (WIDTH - r)) rng in
  let d2 := uniform_real (of_int r) (CHART_TOP - of_int r)%fl (snd d1) in
  is_valid_position ds (fst d1) (fst d2) r = true ->
  find_valid_position ds rng r (S n) = (Some (fst d1, fst d2), snd d2).
Proof.
  intros d1 d2 H. cbn [find_valid_position]. fold d1.
  destruct d1 as [qx g1]. cbn [fst snd] in *. fold d2.
  destruct d2 as [qy g2]. cbn [fst snd] in *. rewrite H. reflexivity.
Qed.

Lemma well_placed_nil : well_placed [].
Proof. intros [|n] d H; discriminate. Qed.

Lemma well_placed_snoc ds d :
  well_placed ds ->
  is_valid_position ds (x d) (y d) (radius d) = true ->
  well_placed (ds ++ [d]).
Proof.
  intros Hw Hd n e Hn.
  destruct (Nat.lt_ge_cases n (length ds)) as [Hlt|Hge].
  - rewrite nth_error_app1 in Hn by exact Hlt.
    rewrite firstn_app.
    replace (n - length ds)%nat with 0%nat by lia.
    cbn [firstn]. rewrite app_nil_r. apply Hw, Hn.
  - rewrite nth_error_app2 in Hn by exact Hge.
    destruct (n - length ds)%nat as [|m] eqn:E.
    + cbn in Hn. injection Hn as <-.
      assert (n = length ds) by lia. subst n.
      rewrite firstn_app, Nat.sub_diag, firstn_all. cbn [firstn].
      rewrite app_nil_r. exact Hd.
    + destruct m; discriminate.
Qed.

Lemma place_one_spec i ds rng ds' rng' :
  place_one i ds rng = (Some ds', rng') ->
  exists d, ds' = ds ++ [d] /\
            is_valid_position ds (x d) (y d) (radius d) = true.
Proof.
  unfold place_one.
  destruct (find_valid_position ds rng DISK_RADIUS default_max_attempts)
    as [[[px py]|] g] eqn:E; [|discriminate].
  destruct (uniform_real (Fin (-200)) (Fin 200) g) as [wx g1].
  destruct (uniform_real (Fin (-200)) (Fin 200) g1) as [wy g2].
  intros H. injection H as <- _.
  eexists. split; [reflexivity|]. cbn [x y radius].
  eapply find_valid_position_valid, E.
Qed.

Lemma place_one_exhausted i ds rng :
  fst (find_valid_position ds rng DISK_RADIUS default_max_attempts) = None ->
  fst (place_one i ds rng) = None.
Proof.
  unfold place_one.
  destruct (find_valid_position ds rng DISK_RADIUS default_max_attempts)
    as [[[px py]|] g]; [discriminate | reflexivity].
Qed.

(** The first exhausted search ends the loop with a failure for that disk. *)
Lemma place_disks_failure k : forall todo i ds rng ds' rng',
  (k < todo)%nat ->
  placed_prefix k i ds rng = Some (ds', rng') ->
  fst (find_valid_position ds' rng' DISK_RADIUS default_max_attempts) = None ->
  fst (place_disks todo i ds rng) = PlacementFailure (i + k).
Proof.
  induction k as [|k IH]; intros todo i ds rng ds' rng' Hk Hp Hf.
  - cbn in Hp. injection Hp as <- <-.
    destruct todo as [|todo]; [lia|]. cbn [place_disks].
    pose proof (place_one_exhausted i ds rng Hf) as Hn.
    destruct (place_one i ds rng) as [[ds1|] g1]; [discriminate|].
    rewrite Nat.add_0_r. reflexivity.
  - destruct todo as [|todo]; [lia|].
    cbn [placed_prefix] in Hp. cbn [place_disks].
    destruct (place_one i ds rng) as [[ds1|] g1]; [|discriminate].
    rewrite (IH todo (S i) ds1 g1 ds' rng') by (assumption || lia).
    f_equal. lia.
Qed.

(** A population that comes out of the loop is complete and well placed. *)
Lemma place_disks_placed todo : forall i ds rng ds' rng',
  well_placed ds ->
  place_disks todo i ds rng = (Placed ds', rng') ->
  length ds' = (length ds + todo)%nat /\ well_placed ds'.
Proof.
  induction todo as [|todo IH]; intros i ds rng ds' rng' Hw H;
    cbn [place_disks] in H.
  - injection H as <- _. split; [lia | exact Hw].
  - destruct (place_one i ds rng) as [[ds1|] g1] eqn:E; [|discriminate].
    apply place_one_spec in E as (d & -> & Hd).
    apply IH in H; [|apply well_placed_snoc; assumption].
    rewrite last_length in H. destruct H as [Hl Hw']. split; [lia | exact Hw'].
Qed.

(** C9: when the search for the position of some disk, bounded to 1000
    attempts, is exhausted, the initialization of the population ends with a
    placement failure for that disk; and a population that is returned has
    all its disks, each on a position that was valid (inside the arena, clear
    of the disks before it) when it was placed. *)
Theorem placement_failure_reported rng :
  default_max_attempts = 1000%nat /\
  (forall k ds g,
      (k < DISK_COUNT)%nat ->
      placed_prefix k 0 [] rng = Some (ds, g) ->
      fst (find_valid_position ds g DISK_RADIUS default_max_attempts) = None ->
      fst (initialize_population rng) = PlacementFailure k) /\
  (forall ds,
      fst (initialize_population rng) = Placed ds ->
      length ds = DISK_COUNT /\ well_placed ds).
Proof.
  split; [reflexivity|]. split.
  - intros k ds g Hk Hp Hf. unfold initialize_population.
    apply (place_disks_failure k DISK_COUNT 0 [] rng ds g Hk Hp Hf).
  - intros ds H. unfold initialize_population in H.
    destruct (place_disks DISK_COUNT 0 [] rng) as [res g] eqn:E.
    cbn [fst] in H. subst res.
    apply (place_disks_placed DISK_COUNT 0 [] rng ds g well_placed_nil E).
Qed.

(** *** A run of the placement on the engine that always returns 0 *)

Lemma uniform_real_zero (a b : R) (c : nat) :
  uniform_real (Fin a) (Fin b) (mkRng (fun _ => 0%Z) c)
  = (Fin (a + (b - a) * (0 / IZR raw_range)), mkRng (fun _ => 0%Z) (S c)).
Proof. reflexivity. Qed.

Lemma is_valid_position_nil (a b : R) (r : Z) :
  0 <= a - IZR r -> a + IZR r <= IZR WIDTH ->
  0 <= b - IZR r -> b + IZR r <= 400 ->
  is_valid_position [] (Fin a) (Fin b) r = true.
Proof.
  intros X1 X2 Y1 Y2. unfold is_valid_position, CHART_TOP, of_int, fgt.
  cbn [fsub fadd].
  rewrite (proj2 (flt_Fin_false (a - IZR r) 0)) by lra.
  rewrite (proj2 (flt_Fin_false (IZR WIDTH) (a + IZR r))) by lra.
  rewrite (proj2 (flt_Fin_false (b - IZR r) 0)) by lra.
  rewrite (proj2 (flt_Fin_false 400 (b + IZR r))) by lra.
  reflexivity.
Qed.

(** A position on the centre of a disk of the population is not valid. *)
Lemma is_valid_position_overlap (a b : R) (r : Z) d ds :
  x d = Fin a -> y d = Fin b -> (0 < r + radius d)%Z ->
  is_valid_position (d :: ds) (Fin a) (Fin b) r = false.
Proof.
  intros Hx Hy Hr. unfold is_valid_position.
  match goal with |- (if ?c then _ else _) = _ => destruct c end;
    [reflexivity|].
  cbn [forallb]. rewrite Hx, Hy. unfold of_int. cbn [fsub fmul fadd].
  assert (Hpos : 0 < IZR (r + radius d)) by (apply IZR_lt; exact Hr).
  assert (Hm : 0 < IZR (r + radius d) * (11 / 10) * (IZR (r + radius d) * (11 / 10))).
  { apply Rmult_lt_0_compat; lra. }
  rewrite (proj2 (flt_Fin _ _)); [reflexivity|].
  replace ((a - a) * (a - a) + (b - b) * (b - b)) with 0 by ring. exact Hm.
Qed.

(** The disk that the zero engine places first. *)
Lemma zero_tape_first_disk :
  exists a b wx wy,
    placed_prefix 1 0 [] zero_tape
    = Some ([mkDisk (Fin a) (Fin b) wx wy DISK_RADIUS MAX_COINS_PER_DISK],
            mkRng (fun _ => 0%Z) 4) /\
    a = IZR DISK_RADIUS + (IZR (WIDTH - DISK_RADIUS) - IZR DISK_RADIUS)
                          * (0 / IZR raw_range) /\
    b = IZR DISK_RADIUS + (400 - IZR DISK_RADIUS - IZR DISK_RADIUS)
                          * (0 / IZR raw_range).
Proof.
  do 4 eexists. split; [|split; reflexivity].
  cbn [placed_prefix]. unfold place_one, zero_tape.
  change default_max_attempts with (S 999).
  rewrite find_valid_position_first.
  - unfold of_int, CHART_TOP. cbn [fsub].
    repeat (rewrite uniform_real_zero; cbn [fst snd]).
    cbn [Nat.eqb app]. reflexivity.
  - unfold of_int, CHART_TOP. cbn [fsub].
    repeat (rewrite uniform_real_zero; cbn [fst snd]).
    apply is_valid_position_nil;
      unfold DISK_RADIUS, WIDTH; change (800 - 20)%Z with 780%Z; lra.
Qed.

(** On that population every further draw of the zero engine falls on the
    first disk: a search of any length is exhausted. *)
Lemma zero_tape_exhausted a b wx wy q n : forall c,
  a = IZR DISK_RADIUS + (IZR (WIDTH - DISK_RADIUS) - IZR DISK_RADIUS)
                        * (0 / IZR raw_range) ->
  b = IZR DISK_RADIUS + (400 - IZR DISK_RADIUS - IZR DISK_RADIUS)
                        * (0 / IZR raw_range) ->
  fst (find_valid_position [mkDisk (Fin a) (Fin b) wx wy DISK_RADIUS q]
         (mkRng (fun _ => 0%Z) c) DISK_RADIUS n) = None.
Proof.
  induction n as [|n IH]; intros c Ha Hb; [reflexivity|].
  cbn [find_valid_position]. unfold of_int, CHART_TOP. cbn [fsub].
  repeat (rewrite uniform_real_zero; cbn [fst snd]). rewrite <- Ha, <- Hb.
  rewrite is_valid_position_overlap by (reflexivity || (cbn; lia)).
  apply (IH (S (S c)) Ha Hb).
Qed.

Lemma placement_failure_reported_witness :
  (exists ds g,
      placed_prefix 1 0 [] zero_tape = Some (ds, g) /\
      fst (find_valid_position ds g DISK_RADIUS default_max_attempts) = None) /\
  fst (initialize_population zero_tape) = PlacementFailure 1.
Proof.
  destruct zero_tape_first_disk as (a & b & wx & wy & Hp & Ha & Hb).
  pose proof (zero_tape_exhausted a b wx wy MAX_COINS_PER_DISK
                default_max_attempts 4 Ha Hb) as Hf.
  split; [eexists; eexists; split; [exact Hp | exact Hf]|].
  assert (Hk : (1 < DISK_COUNT)%nat) by (unfold DISK_COUNT; lia).
  exact (proj1 (proj2 (placement_failure_reported zero_tape)) 1%nat _ _ Hk Hp Hf).
Defined.

End PlacementFacts.

(** ** Further facts on the collision response *)

Module ResponseFacts.
Import Uniform UniformFacts CollisionFacts.

Lemma gap_sym px1 py1 px2 py2 : gap px1 py1 px2 py2 = gap px2 py2 px1 py1.
Proof. unfold gap. f_equal. ring. Qed.

Lemma distance_sym d1 d2 : distance d1 d2 = distance d2 d1.
Proof.
  destruct d1 as [[px1|] [py1|] wx1 wy1 r1 q1];
    destruct d2 as [[px2|] [py2|] wx2 wy2 r2 q2]; try reflexivity.
  rewrite !distance_Fin. f_equal. apply gap_sym.
Qed.








(** X4: the response does not depend on the order in which the pair is
    passed, whatever the two engines: the same collision is reported and
    each disk gets the same position and velocity; only the coin counts can
    differ. *)
Theorem response_symmetric d1 d2 g h dist :
  resolvable d1 d2 dist ->
  let '(hit, (e1, e2), _) := handle_disk_collision d1 d2 g in
  let '(hit', (f2, f1), _) := handle_disk_collision d2 d1 h in
  hit = hit' /\ finite_disk e1 /\ finite_disk e2 /\
  set_coins e1 0 = set_coins f1 0 /\ set_coins e2 0 = set_coins f2 0.
Proof.
  intros (F1 & F2 & Hd & Hr).
  destruct d1 as [[px1|] [py1|] [wx1|] [wy1|] r1 q1];
    try (exfalso; unfold finite_disk in F1; cbn in F1; tauto).
  destruct d2 as [[px2|] [py2|] [wx2|] [wy2|] r2 q2];
    try (exfalso; unfold finite_disk in F2; cbn in F2; tauto).
  rewrite distance_Fin in Hd. injection Hd as Hd. subst dist.
  cbn [radius] in Hr.
  rewrite (collision_finite px1 py1 wx1 wy1 r1 q1 px2 py2 wx2 wy2 r2 q2 g Hr).
  assert (Hr' : 0 < gap px2 py2 px1 py1 < IZR (r2 + r1)).
  { rewrite (gap_sym px2 py2 px1 py1), Z.add_comm. exact Hr. }
  rewrite (collision_finite px2 py2 wx2 wy2 r2 q2 px1 py1 wx1 wy1 r1 q1 h Hr').
  rewrite (gap_sym px2 py2 px1 py1), (Z.add_comm r2 r1).
  set (gp := gap px1 py1 px2 py2) in *.
  unfold set_coins, finite_disk. cbn [x y vx vy radius coin_count is_finite].
  repeat split; f_equal; f_equal; field; lra.
Qed.

Lemma response_symmetric_witness :
  resolvable disk_a disk_b 30 /\
  let '(hit, (e1, e2), _) := handle_disk_collision disk_a disk_b zero_tape in
  let '(hit', (f2, f1), _) := handle_disk_collision disk_b disk_a zero_tape in
  hit = hit' /\ finite_disk e1 /\ finite_disk e2 /\
  set_coins e1 0 = set_coins f1 0 /\ set_coins e2 0 = set_coins f2 0.
Proof.
  split; [exact sample_resolvable|].
  exact (response_symmetric disk_a disk_b zero_tape zero_tape 30
           sample_resolvable).
Defined.

End ResponseFacts.

(** ** The coins of the population over whole ticks *)

Module TotalFacts.
Import UniformFacts CoinFacts.

Lemma fold_left_invariant_in {A B : Type} (P : A -> Prop) (f : A -> B -> A)
  (l : list B) :
  (forall a b, In b l -> P a -> P (f a b)) ->
  forall a, P a -> P (fold_left f l a).
Proof.
  induction l as [|b l IH]; intros Hf a Ha; [exact Ha|].
  cbn [fold_left]. apply IH.
  - intros a' b' Hin. apply Hf. right. exact Hin.
  - apply Hf; [left; reflexivity | exact Ha].
Qed.

Lemma length_set_nth {A : Type} (a : A) (l : list A) :
  forall i, length (set_nth i a l) = length l.
Proof.
  induction l as [|h t IH]; intros [|i]; cbn [set_nth length]; auto.
Qed.

Lemma nth_error_set_nth_other {A : Type} (a : A) (l : list A) :
  forall i j, i <> j -> nth_error (set_nth i a l) j = nth_error l j.
Proof.
  induction l as [|h t IH]; intros [|i] [|j] Hij; cbn [set_nth nth_error];
    try reflexivity; try contradiction.
  apply IH. intros E. apply Hij. f_equal. exact E.
Qed.

Lemma total_coins_set_nth a (l : list Disk) :
  forall i old, nth_error l i = Some old ->
  total_coins (set_nth i a l)
  = (total_coins l - coin_count old + coin_count a)%Z.
Proof.
  induction l as [|h t IH]; intros [|i] old Hn; cbn [nth_error] in Hn;
    try discriminate.
  - injection Hn as ->. cbn [set_nth total_coins fold_right]. lia.
  - cbn [set_nth total_coins fold_right]. fold (total_coins (set_nth i a t)).
    fold (total_coins t). rewrite (IH i old Hn). lia.
Qed.

Lemma total_coins_map (f : Disk -> Disk) (l : list Disk) :
  (forall d, coin_count (f d) = coin_count d) ->
  total_coins (map f l) = total_coins l.
Proof.
  intros Hf. induction l as [|h t IH]; [reflexivity|].
  cbn [map total_coins fold_right]. fold (total_coins (map f t)).
  fold (total_coins t). rewrite IH, Hf. reflexivity.
Qed.

(** Writing back the two disks of a pair changes the total by what the pair
    gained. *)
Lemma total_coins_pair (ds : list Disk) i j a b a' b' :
  i <> j -> nth_error ds i = Some a -> nth_error ds j = Some b ->
  total_coins (set_nth j b' (set_nth i a' ds))
  = (total_coins ds
     + (coin_count a' + coin_count b' - (coin_count a + coin_count b)))%Z.
Proof.
  intros Hij Ha Hb.
  rewrite (total_coins_set_nth b' (set_nth i a' ds) j b)
    by (rewrite nth_error_set_nth_other by exact Hij; exact Hb).
  rewrite (total_coins_set_nth a' ds i a Ha). lia.
Qed.

Lemma uniform_pair_total d1 d2 rng :
  let '(_, (e1, e2), _) := Uniform.handle_disk_collision d1 d2 rng in
  (coin_count e1 + coin_count e2 = coin_count d1 + coin_count d2)%Z.
Proof.
  pose proof (uniform_coin_counts d1 d2 rng) as Hc. cbv zeta in Hc.
  pose proof (redistribute_spec (coin_count d1) (coin_count d2) rng) as [Hs _].
  destruct (Uniform.handle_disk_collision d1 d2 rng) as [[hit [e1 e2]] rng'].
  cbn [fst snd] in Hc.
  destruct (Uniform.redistribute (coin_count d1) (coin_count d2) rng)
    as [[c1 c2] g'].
  cbn [fst snd] in *. destruct hit; injection Hc as -> ->; lia.
Qed.

Lemma update_position_coins sf d dt :
  coin_count (Uniform.update_position sf d dt) = coin_count d.
Proof.
  unfold Uniform.update_position.
  destruct (reflect _ _ _ _ _) as [x2 vx2].
  destruct (reflect _ _ _ _ _) as [y2 vy2]. reflexivity.
Qed.

(** What one call of the pair loop keeps, for two different indices. *)
Lemma uniform_collide_pair_keeps i j st :
  i <> j ->
  let st' := Uniform.collide_pair i j st in
  total_coins (fst (fst st')) = total_coins (fst (fst st)) /\
  length (fst (fst st')) = length (fst (fst st)) /\
  (snd st <= snd st' <= snd st + 1)%Z.
Proof.
  intros Hij. destruct st as [[ds g] n]. cbn [fst snd].
  unfold Uniform.collide_pair.
  destruct (nth_error ds i) as [a|] eqn:Ea; [|cbn [fst snd]; lia].
  destruct (nth_error ds j) as [b|] eqn:Eb; [|cbn [fst snd]; lia].
  pose proof (uniform_pair_total a b g) as Hs.
  destruct (Uniform.handle_disk_collision a b g) as [[hit [a' b']] g'].
  cbn [fst snd].
  rewrite (total_coins_pair ds i j a b a' b' Hij Ea Eb), !length_set_nth.
  destruct hit; lia.
Qed.

Lemma pairs_of_cons bound i is_ :
  pairs_of bound (i :: is_) = (bound - S i + pairs_of bound is_)%nat.
Proof. reflexivity. Qed.

Lemma uniform_pair_loop_keeps i js : forall st,
  (forall j, In j js -> i <> j) ->
  let st' := fold_left (fun st j => Uniform.collide_pair i j st) js st in
  total_coins (fst (fst st')) = total_coins (fst (fst st)) /\
  length (fst (fst st')) = length (fst (fst st)) /\
  (snd st <= snd st' <= snd st + Z.of_nat (length js))%Z.
Proof.
  induction js as [|j js IH]; intros st Hjs; cbn [fold_left length].
  - lia.
  - pose proof (uniform_collide_pair_keeps i j st (Hjs j (or_introl eq_refl)))
      as (H1 & H2 & H3).
    specialize (IH (Uniform.collide_pair i j st)
                  (fun j' Hin => Hjs j' (or_intror Hin))).
    cbv zeta in *. destruct IH as (I1 & I2 & I3).
    rewrite I1, I2, H1, H2. lia.
Qed.

Lemma uniform_disk_loop_keeps bound is_ : forall st,
  let st' :=
    fold_left
      (fun st i =>
         fold_left (fun st j => Uniform.collide_pair i j st)
           (seq (S i) (bound - S i)) st) is_ st in
  total_coins (fst (fst st')) = total_coins (fst (fst st)) /\
  length (fst (fst st')) = length (fst (fst st)) /\
  (snd st <= snd st' <= snd st + Z.of_nat (pairs_of bound is_))%Z.
Proof.
  induction is_ as [|i is_ IH]; intros st; cbn [fold_left].
  - change (pairs_of bound []) with 0%nat. lia.
  - assert (Hjs : forall j, In j (seq (S i) (bound - S i)) -> i <> j).
    { intros j Hin. apply in_seq in Hin. lia. }
    pose proof (uniform_pair_loop_keeps i (seq (S i) (bound - S i)) st Hjs)
      as (H1 & H2 & H3).
    rewrite length_seq in H3.
    specialize (IH (fold_left (fun st j => Uniform.collide_pair i j st)
                      (seq (S i) (bound - S i)) st)).
    cbv zeta in *. destruct IH as (I1 & I2 & I3).
    rewrite I1, I2, H1, H2, pairs_of_cons. lia.
Qed.

Lemma pairs_of_20 :
  Z.of_nat (pairs_of Uniform.DISK_COUNT (seq 0 Uniform.DISK_COUNT)) = 190%Z.
Proof. reflexivity. Qed.

Lemma uniform_collide_all_keeps ds g :
  total_coins (fst (fst (Uniform.collide_all ds g))) = total_coins ds /\
  length (fst (fst (Uniform.collide_all ds g))) = length ds /\
  (0 <= snd (Uniform.collide_all ds g) <= 190)%Z.
Proof.
  unfold Uniform.collide_all.
  pose proof (uniform_disk_loop_keeps Uniform.DISK_COUNT
                (seq 0 Uniform.DISK_COUNT) (ds, g, 0%Z)) as H.
  cbv zeta in H. rewrite pairs_of_20 in H. exact H.
Qed.

Lemma uniform_step_keeps dt s :
  total_coins (Uniform.disks (Uniform.step dt s))
  = total_coins (Uniform.disks s) /\
  length (Uniform.disks (Uniform.step dt s)) = length (Uniform.disks s) /\
  (Uniform.collision_count s <= Uniform.collision_count (Uniform.step dt s)
   <= Uniform.collision_count s + 190)%Z.
Proof.
  unfold Uniform.step.
  pose proof (uniform_collide_all_keeps
                (map (fun d => Uniform.update_position
                                 (Uniform.g_speedFactor s) d dt)
                   (Uniform.disks s)) (Uniform.rng s)) as (H1 & H2 & H3).
  destruct (Uniform.collide_all _ _) as [[ds g] n]. cbn [fst snd] in *.
  rewrite total_coins_map in H1 by (intros d; apply update_position_coins).
  rewrite length_map in H2.
  unfold Uniform.maybe_sample.
  match goal with |- context [if ?b then _ else _] => destruct b end;
    cbn [Uniform.disks Uniform.collision_count];
    (split; [exact H1 | split; [exact H2 | lia]]).
Qed.

(** X5: a tick of the first program keeps the number of disks and the sum of
    all coin counts, whatever the population, the time step and the draws;
    so does every tick of a run. *)
Theorem uniform_run_conserves_coins dts s :
  Forall
    (fun s' =>
       total_coins (Uniform.disks s') = total_coins (Uniform.disks s) /\
       length (Uniform.disks s') = length (Uniform.disks s))
    (Uniform.run dts s).
Proof.
  revert s. induction dts as [|dt dts IH]; intros s; cbn [Uniform.run].
  - constructor.
  - destruct (uniform_step_keeps dt s) as (E1 & E2 & _).
    constructor; [split; assumption|].
    rewrite <- E1, <- E2. apply IH.
Qed.

(** X6: the collision counter never decreases over a tick of the first
    program and grows by at most 190, the number of pairs of 20 disks. *)
Theorem uniform_step_counter_bounds dt s :
  (Uniform.collision_count s <= Uniform.collision_count (Uniform.step dt s)
   <= Uniform.collision_count s + 190)%Z.
Proof. exact (proj2 (proj2 (uniform_step_keeps dt s))). Qed.

(** X25: in the first program every coin count stays in
    [0, MAX_COINS_PER_DISK] after every tick of a run that starts with all
    counts in that range, whatever the time steps and the draws. *)
Theorem uniform_run_keeps_range dts : forall s,
  coins_in_range Uniform.MAX_COINS_PER_DISK (Uniform.disks s) ->
  Forall
    (fun s' => coins_in_range Uniform.MAX_COINS_PER_DISK (Uniform.disks s'))
    (Uniform.run dts s).
Proof.
  induction dts as [|dt dts IH]; intros s H; cbn [Uniform.run].
  - constructor.
  - pose proof (uniform_step_in_range dt s H) as H'.
    constructor; [exact H' | apply IH, H'].
Qed.

Lemma uniform_run_keeps_range_witness :
  coins_in_range Uniform.MAX_COINS_PER_DISK (Uniform.disks sfml_start) /\
  Forall
    (fun s' => coins_in_range Uniform.MAX_COINS_PER_DISK (Uniform.disks s'))
    (Uniform.run [Fin (1 / 60); Fin (1 / 60)] sfml_start).
Proof.
  assert (H : coins_in_range Uniform.MAX_COINS_PER_DISK
                (Uniform.disks sfml_start)).
  { unfold coins_in_range, Uniform.MAX_COINS_PER_DISK. cbn.
    repeat constructor; cbn; lia. }
  split; [exact H|].
  exact (uniform_run_keeps_range [Fin (1 / 60); Fin (1 / 60)] sfml_start H).
Defined.

End TotalFacts.

(** ** Further facts on the coin-exchange rules *)

Module ExchangeFacts.
Import UniformFacts CoinFacts TotalFacts.

(** *** The list of splits of the uniform rule *)

Lemma redistribution_loop_complete fuel : forall start total a,
  (start <= a < start + Z.of_nat fuel)%Z ->
  (a <= Uniform.MAX_COINS_PER_DISK)%Z ->
  (total - a <= Uniform.MAX_COINS_PER_DISK)%Z ->
  In (a, (total - a)%Z) (Uniform.redistribution_loop fuel start total).
Proof.
  induction fuel as [|fuel IH]; intros start total a Hr H1 H2; [lia|].
  cbn [Uniform.redistribution_loop].
  destruct (Z.eq_dec a start) as [->|Hne].
  - rewrite (proj2 (Z.leb_le _ _) H1), (proj2 (Z.leb_le _ _) H2).
    left. reflexivity.
  - assert (Hin : In (a, (total - a)%Z)
                    (Uniform.redistribution_loop fuel (start + 1) total))
      by (apply IH; lia).
    destruct ((start <=? Uniform.MAX_COINS_PER_DISK)
              && (total - start <=? Uniform.MAX_COINS_PER_DISK))%Z;
      [right|]; exact Hin.
Qed.

Lemma redistribution_loop_NoDup fuel : forall start total,
  NoDup (Uniform.redistribution_loop fuel start total).
Proof.
  induction fuel as [|fuel IH]; intros start total; [constructor|].
  cbn [Uniform.redistribution_loop].
  destruct ((start <=? Uniform.MAX_COINS_PER_DISK)
            && (total - start <=? Uniform.MAX_COINS_PER_DISK))%Z;
    [|apply IH].
  constructor; [|apply IH].
  intros Hin. apply redistribution_loop_In in Hin. cbn [fst] in Hin. lia.
Qed.

(** X7: the list from which the uniform rule draws holds every split of the
    total into two counts of [0, MAX_COINS_PER_DISK], each once, and nothing
    else. *)
Theorem possible_redistributions_exact total a b :
  (In (a, b) (Uniform.possible_redistributions total) <->
   (a + b = total /\ 0 <= a <= Uniform.MAX_COINS_PER_DISK /\
    0 <= b <= Uniform.MAX_COINS_PER_DISK)%Z) /\
  NoDup (Uniform.possible_redistributions total).
Proof.
  split; [split|].
  - intros Hin. apply possible_redistributions_In in Hin. exact Hin.
  - intros (Hs & Ha & Hb). subst total.
    replace b with (a + b - a)%Z at 1 by lia.
    apply redistribution_loop_complete; lia.
  - apply redistribution_loop_NoDup.
Qed.

Lemma redistribution_loop_length fuel : forall start total,
  (length (Uniform.redistribution_loop fuel start total) <= fuel)%nat.
Proof.
  induction fuel as [|fuel IH]; intros start total; [reflexivity|].
  cbn [Uniform.redistribution_loop]. specialize (IH (start + 1)%Z total).
  destruct ((start <=? Uniform.MAX_COINS_PER_DISK)
            && (total - start <=? Uniform.MAX_COINS_PER_DISK))%Z;
    cbn [length]; lia.
Qed.

(** X8: every split of the pair's total into two counts in range can come out
    of the uniform rule: some engine draws it.  In particular the exchange is
    not restricted to splits near the present one. *)
Theorem every_split_reachable q1 q2 a b :
  (a + b = q1 + q2)%Z ->
  (0 <= a <= Uniform.MAX_COINS_PER_DISK)%Z ->
  (0 <= b <= Uniform.MAX_COINS_PER_DISK)%Z ->
  exists rng, fst (Uniform.redistribute q1 q2 rng) = (a, b).
Proof.
  intros Hs Ha Hb.
  assert (Hin : In (a, b) (Uniform.possible_redistributions (q1 + q2))).
  { replace b with (q1 + q2 - a)%Z by lia.
    unfold Uniform.possible_redistributions.
    apply redistribution_loop_complete; lia. }
  destruct (In_nth _ _ (0%Z, 0%Z) Hin) as (n & Hn & Hnth).
  exists (mkRng (fun _ => Z.of_nat n) 0).
  unfold Uniform.redistribute.
  assert (Hlen : (length (Uniform.possible_redistributions (q1 + q2)) <= 51)%nat).
  { unfold Uniform.possible_redistributions.
    etransitivity; [apply redistribution_loop_length|].
    unfold Uniform.MAX_COINS_PER_DISK in *. lia. }
  destruct (Uniform.possible_redistributions (q1 + q2)) as [|p l] eqn:E;
    [contradiction|].
  unfold uniform_int, rng_next. cbn [tape cursor fst snd].
  replace (Z.to_nat ((Z.of_nat n mod raw_range) mod Z.of_nat (length (p :: l))))
    with n.
  - rewrite Hnth. reflexivity.
  - rewrite (Z.mod_small (Z.of_nat n) raw_range)
      by (unfold raw_range; lia).
    rewrite Z.mod_small by lia. lia.
Qed.

Lemma every_split_reachable_witness :
  ((10 + 15 = 25 + 0)%Z /\ (0 <= 10 <= Uniform.MAX_COINS_PER_DISK)%Z /\
   (0 <= 15 <= Uniform.MAX_COINS_PER_DISK)%Z) /\
  exists rng, fst (Uniform.redistribute 25 0 rng) = (10%Z, 15%Z).
Proof.
  assert (Hs : (10 + 15 = 25 + 0)%Z) by reflexivity.
  assert (Ha : (0 <= 10 <= Uniform.MAX_COINS_PER_DISK)%Z)
    by (unfold Uniform.MAX_COINS_PER_DISK; lia).
  assert (Hb : (0 <= 15 <= Uniform.MAX_COINS_PER_DISK)%Z)
    by (unfold Uniform.MAX_COINS_PER_DISK; lia).
  split; [split; [exact Hs | split; [exact Ha | exact Hb]]|].
  exact (every_split_reachable 25 0 10 15 Hs Ha Hb).
Defined.

(** *** Independent trials *)

Lemma clamp_max_le cap q : (clamp_max cap q <= q)%Z.
Proof.
  unfold clamp_max. destruct (q >? cap)%Z eqn:E; [|lia].
  rewrite Z.gtb_ltb in E. apply Z.ltb_lt in E. lia.
Qed.

Lemma clamp_max_id cap q : (q <= cap)%Z -> clamp_max cap q = q.
Proof.
  intros H. unfold clamp_max. destruct (q >? cap)%Z eqn:E; [|reflexivity].
  rewrite Z.gtb_ltb in E. apply Z.ltb_lt in E. lia.
Qed.

(** The standard exchange never creates coins, whatever the trial totals. *)
Lemma independent_trials_total cap t1 t2 q1 q2 g :
  let '(c1, c2, _) := independent_trials cap t1 t2 q1 q2 g in
  (c1 + c2 <= q1 + q2)%Z.
Proof.
  unfold independent_trials.
  destruct (count_flips (Z.to_nat t1) 0 g) as [to_d2 g1].
  destruct (count_flips (Z.to_nat t2) 0 g1) as [to_d1 g2].
  pose proof (clamp_max_le cap (q1 - to_d2 + to_d1)).
  pose proof (clamp_max_le cap (q2 + to_d2 - to_d1)). lia.
Qed.

(** When the pair holds no more than one disk may, the clamp is idle and the
    exchange of the coins held keeps the total. *)
Lemma independent_trials_exact cap q1 q2 g :
  (0 <= q1)%Z -> (0 <= q2)%Z -> (q1 + q2 <= cap)%Z ->
  let '(c1, c2, _) := independent_trials cap q1 q2 q1 q2 g in
  (c1 + c2 = q1 + q2 /\ 0 <= c1 /\ 0 <= c2)%Z.
Proof.
  intros H1 H2 Hc. unfold independent_trials.
  pose proof (count_flips_bounds (Z.to_nat q1) 0 g) as B1.
  destruct (count_flips (Z.to_nat q1) 0 g) as [to_d2 g1]. cbn [fst] in B1.
  pose proof (count_flips_bounds (Z.to_nat q2) 0 g1) as B2.
  destruct (count_flips (Z.to_nat q2) 0 g1) as [to_d1 g2]. cbn [fst] in B2.
  rewrite !clamp_max_id by lia. lia.
Qed.

Lemma matplot_coin_counts d1 d2 rng :
  let r := Matplot.handle_disk_collision d1 d2 rng in
  (coin_count (fst (snd (fst r))), coin_count (snd (snd (fst r))))
  = if fst (fst r)
    then fst (independent_trials Matplot.MAX_COINS_PER_DISK
                (coin_count d1) (coin_count d2)
                (coin_count d1) (coin_count d2) rng)
    else (coin_count d1, coin_count d2).
Proof.
  unfold Matplot.handle_disk_collision.
  destruct (flt (distance d1 d2) (of_int (radius d1 + radius d2))); [|reflexivity].
  destruct (normal d1 d2 (distance d1 d2)) as [nx ny].
  unfold elastic, set_vel. cbn [coin_count].
  destruct (independent_trials _ _ _ _ _ _) as [[c1 c2] g']. reflexivity.
Qed.

(** The totals of a pair over a call of the resolver of the SDL program. *)
Lemma matplot_pair_total_spec d1 d2 rng :
  let '(_, (e1, e2), _) := Matplot.handle_disk_collision d1 d2 rng in
  (coin_count e1 + coin_count e2 <= coin_count d1 + coin_count d2)%Z /\
  ((0 <= coin_count d1)%Z -> (0 <= coin_count d2)%Z ->
   (coin_count d1 + coin_count d2 <= Matplot.MAX_COINS_PER_DISK)%Z ->
   (coin_count e1 + coin_count e2 = coin_count d1 + coin_count d2 /\
    0 <= coin_count e1 /\ 0 <= coin_count e2)%Z).
Proof.
  pose proof (matplot_coin_counts d1 d2 rng) as Hc. cbv zeta in Hc.
  pose proof (independent_trials_total Matplot.MAX_COINS_PER_DISK
                (coin_count d1) (coin_count d2)
                (coin_count d1) (coin_count d2) rng) as Ht.
  pose proof (independent_trials_exact Matplot.MAX_COINS_PER_DISK
                (coin_count d1) (coin_count d2) rng) as He.
  destruct (Matplot.handle_disk_collision d1 d2 rng) as [[hit [e1 e2]] rng'].
  cbn [fst snd] in Hc.
  destruct (independent_trials _ _ _ _ _ _) as [[c1 c2] g'].
  cbn [fst] in Hc.
  destruct hit; injection Hc as -> ->.
  - split; [exact Ht | exact He].
  - split; [lia | intros; lia].
Qed.

(** X9: in the SDL program a call of the resolver never creates coins: the
    pair's total after is at most the total before, and it is the same
    whenever the two counts are non-negative and their total fits one disk,
    so that the final clamp is idle. *)
Theorem matplot_pair_total d1 d2 rng :
  let '(_, (e1, e2), _) := Matplot.handle_disk_collision d1 d2 rng in
  (coin_count e1 + coin_count e2 <= coin_count d1 + coin_count d2)%Z /\
  ((0 <= coin_count d1)%Z -> (0 <= coin_count d2)%Z ->
   (coin_count d1 + coin_count d2 <= Matplot.MAX_COINS_PER_DISK)%Z ->
   (coin_count e1 + coin_count e2 = coin_count d1 + coin_count d2 /\
    0 <= coin_count e1 /\ 0 <= coin_count e2)%Z).
Proof. exact (matplot_pair_total_spec d1 d2 rng). Qed.

Lemma matplot_pair_total_witness :
  ((0 <= coin_count disk_p)%Z /\ (0 <= coin_count disk_q)%Z /\
   (coin_count disk_p + coin_count disk_q <= Matplot.MAX_COINS_PER_DISK)%Z) /\
  let '(_, (e1, e2), _) := Matplot.handle_disk_collision disk_p disk_q zero_tape in
  (coin_count e1 + coin_count e2 = coin_count disk_p + coin_count disk_q /\
   0 <= coin_count e1 /\ 0 <= coin_count e2)%Z.
Proof.
  assert (H1 : (0 <= coin_count disk_p)%Z) by (cbn; lia).
  assert (H2 : (0 <= coin_count disk_q)%Z) by (cbn; lia).
  assert (H3 : (coin_count disk_p + coin_count disk_q
                <= Matplot.MAX_COINS_PER_DISK)%Z)
    by (cbn; unfold Matplot.MAX_COINS_PER_DISK; lia).
  split; [split; [exact H1 | split; [exact H2 | exact H3]]|].
  pose proof (matplot_pair_total disk_p disk_q zero_tape) as H.
  destruct (Matplot.handle_disk_collision disk_p disk_q zero_tape)
    as [[hit [e1 e2]] g].
  exact (proj2 H H1 H2 H3).
Defined.

(** *** The total of the population in the SDL program *)

Lemma total_coins_nonneg ds :
  Forall (fun d => (0 <= coin_count d)%Z) ds -> (0 <= total_coins ds)%Z.
Proof.
  induction 1 as [|d l Hd _ IH]; cbn [total_coins fold_right]; [lia|].
  fold (total_coins l). lia.
Qed.

(** Two different disks of a population without debts hold no more than
    the population. *)
Lemma pair_le_total ds i j a b :
  Forall (fun d => (0 <= coin_count d)%Z) ds ->
  i <> j -> nth_error ds i = Some a -> nth_error ds j = Some b ->
  (coin_count a + coin_count b <= total_coins ds)%Z.
Proof.
  intros Hds Hij Ha Hb.
  pose proof (total_coins_pair ds i j a b (set_coins a 0) (set_coins b 0)
                Hij Ha Hb) as E.
  cbn [set_coins coin_count] in E.
  assert (Hn : Forall (fun d => (0 <= coin_count d)%Z)
                 (set_nth j (set_coins b 0) (set_nth i (set_coins a 0) ds))).
  { apply set_nth_Forall; [cbn; lia|]. apply set_nth_Forall; [cbn; lia|].
    exact Hds. }
  apply total_coins_nonneg in Hn. lia.
Qed.

Lemma in_range_nonneg cap ds :
  coins_in_range cap ds -> Forall (fun d => (0 <= coin_count d)%Z) ds.
Proof.
  intros H. eapply Forall_impl; [|exact H]. intros d Hd. cbv beta in *. lia.
Qed.

Lemma matplot_update_position_coins d dt :
  coin_count (Matplot.update_position d dt) = coin_count d.
Proof.
  unfold Matplot.update_position.
  destruct (reflect _ _ _ _ _) as [x2 vx2].
  destruct (reflect _ _ _ _ _) as [y2 vy2]. reflexivity.
Qed.

Lemma matplot_collide_pair_fits total i j s :
  (total <= Matplot.MAX_COINS_PER_DISK)%Z -> i <> j ->
  fits total s -> fits total (Matplot.collide_pair i j s).
Proof.
  intros Hcap Hij [Hr Ht]. unfold Matplot.collide_pair.
  destruct (nth_error (Matplot.disks s) i) as [a|] eqn:Ea; [|split; assumption].
  destruct (nth_error (Matplot.disks s) j) as [b|] eqn:Eb; [|split; assumption].
  pose proof (nth_error_Forall _ _ _ _ Hr Ea) as Ra.
  pose proof (nth_error_Forall _ _ _ _ Hr Eb) as Rb. cbv beta in Ra, Rb.
  pose proof (pair_le_total _ i j a b (in_range_nonneg _ _ Hr) Hij Ea Eb) as Hab.
  pose proof (matplot_pair_total_spec a b (Matplot.rng s)) as Hp.
  destruct (Matplot.handle_disk_collision a b (Matplot.rng s))
    as [[hit [a' b']] g'].
  destruct Hp as [_ Hp].
  destruct Hp as (Hs & Ha' & Hb'); [lia | lia | lia |].
  assert (Hfit : fits total
                   (Matplot.mkSim (set_nth j b' (set_nth i a' (Matplot.disks s)))
                      0 (Matplot.stats s) g')).
  { split; cbn [Matplot.disks].
    - apply set_nth_Forall; [lia|]. apply set_nth_Forall; [lia | exact Hr].
    - rewrite (total_coins_pair _ i j a b a' b' Hij Ea Eb). lia. }
  destruct hit; exact Hfit.
Qed.

(** X10: when the coins of the population are non-negative and all fit one
    disk, as with the 8 coins of the start, a tick of the SDL program keeps
    every count in range and the sum of all counts: the clamp of the
    independent trials never fires in such a run. *)
Theorem matplot_step_conserves_coins dt s :
  coins_in_range Matplot.MAX_COINS_PER_DISK (Matplot.disks s) ->
  (total_coins (Matplot.disks s) <= Matplot.MAX_COINS_PER_DISK)%Z ->
  coins_in_range Matplot.MAX_COINS_PER_DISK (Matplot.disks (Matplot.step dt s)) /\
  total_coins (Matplot.disks (Matplot.step dt s)) = total_coins (Matplot.disks s).
Proof.
  intros Hr Hcap. unfold Matplot.step.
  apply (fold_left_invariant (fits (total_coins (Matplot.disks s)))).
  - intros st i Hst.
    apply (fold_left_invariant_in (fits (total_coins (Matplot.disks s))));
      [|exact Hst].
    intros st' j Hin Hst'. apply in_seq in Hin.
    apply matplot_collide_pair_fits; [exact Hcap | lia | exact Hst'].
  - split; cbn [Matplot.disks].
    + unfold coins_in_range in *. rewrite Forall_map.
      eapply Forall_impl; [|exact Hr]. intros d Hd.
      rewrite matplot_update_position_coins. exact Hd.
    + apply total_coins_map. intros d. apply matplot_update_position_coins.
Qed.

Lemma matplot_step_conserves_coins_witness :
  (coins_in_range Matplot.MAX_COINS_PER_DISK (Matplot.disks sdl_start) /\
   (total_coins (Matplot.disks sdl_start) <= Matplot.MAX_COINS_PER_DISK)%Z) /\
  coins_in_range Matplot.MAX_COINS_PER_DISK
    (Matplot.disks (Matplot.step (Fin (1 / 100)) sdl_start)) /\
  total_coins (Matplot.disks (Matplot.step (Fin (1 / 100)) sdl_start))
  = total_coins (Matplot.disks sdl_start).
Proof.
  assert (Hr : coins_in_range Matplot.MAX_COINS_PER_DISK (Matplot.disks sdl_start)).
  { unfold coins_in_range, Matplot.MAX_COINS_PER_DISK.
    repeat constructor; cbn; lia. }
  assert (Hc : (total_coins (Matplot.disks sdl_start)
                <= Matplot.MAX_COINS_PER_DISK)%Z)
    by (cbn; unfold Matplot.MAX_COINS_PER_DISK; lia).
  split; [split; assumption|].
  exact (matplot_step_conserves_coins (Fin (1 / 100)) sdl_start Hr Hc).
Defined.

End ExchangeFacts.

(** ** The extent of the special case for empty disks *)

Module ZeroCaseFacts.
Import CoinFacts ExchangeFacts.

Lemma clamp_max_bound cap q : (clamp_max cap q <= cap)%Z.
Proof.
  unfold clamp_max. destruct (q >? cap)%Z eqn:E; [lia|].
  rewrite Z.gtb_ltb in E. apply Z.ltb_ge in E. exact E.
Qed.

Lemma clamp_max_ge cap q lo : (lo <= q)%Z -> (lo <= cap)%Z -> (lo <= clamp_max cap q)%Z.
Proof. intros H1 H2. unfold clamp_max. destruct (q >? cap)%Z; assumption. Qed.

(** Bounds on the standard exchange for any trial totals: a disk loses at
    most as many coins as flips are made for it. *)
Lemma independent_trials_bounds cap t1 t2 q1 q2 g lo :
  (lo <= cap)%Z -> (0 <= t1)%Z -> (0 <= t2)%Z ->
  (lo <= q1 - t1)%Z -> (lo <= q2 - t2)%Z ->
  let '(c1, c2, _) := independent_trials cap t1 t2 q1 q2 g in
  (lo <= c1 <= cap /\ lo <= c2 <= cap)%Z.
Proof.
  intros Hcap T1 T2 L1 L2. unfold independent_trials.
  pose proof (count_flips_bounds (Z.to_nat t1) 0 g) as F1.
  destruct (count_flips (Z.to_nat t1) 0 g) as [to_d2 h1]. cbn [fst] in F1.
  pose proof (count_flips_bounds (Z.to_nat t2) 0 h1) as F2.
  destruct (count_flips (Z.to_nat t2) 0 h1) as [to_d1 h2]. cbn [fst] in F2.
  pose proof (clamp_max_bound cap (q1 - to_d2 + to_d1)).
  pose proof (clamp_max_bound cap (q2 + to_d2 - to_d1)).
  pose proof (clamp_max_ge cap (q1 - to_d2 + to_d1) lo ltac:(lia) Hcap).
  pose proof (clamp_max_ge cap (q2 + to_d2 - to_d1) lo ltac:(lia) Hcap).
  lia.
Qed.

(** What the special case does to a pair of counts without debts: the total
    stays, no count goes below zero and the giver loses at most one coin;
    a disk that is not empty receives nothing and no flip is drawn. *)
Lemma give_one_spec qa qb rng :
  (0 <= qa)%Z -> (0 <= qb)%Z ->
  let '(qa', qb', rng') := ZeroCase.give_one qa qb rng in
  (qa' + qb' = qa + qb /\ 0 <= qa' /\ 0 <= qb' /\
   qa <= qa' /\ qb - 1 <= qb')%Z /\
  ((0 < qa)%Z -> (qa', qb', rng') = (qa, qb, rng)).
Proof.
  intros Ha Hb. unfold ZeroCase.give_one.
  destruct (qa =? 0)%Z eqn:E0; cbn [andb].
  - apply Z.eqb_eq in E0.
    destruct (qb >? 0)%Z eqn:E1; [|split; [lia | intros; lia]].
    rewrite Z.gtb_ltb in E1. apply Z.ltb_lt in E1.
    destruct (coin_flip rng) as [[|] g]; (split; [lia | intros; lia]).
  - split; [lia | reflexivity].
Qed.

(** X11: in the program with the special case for empty disks the exchange on
    two counts of [0, MAX_COINS_PER_DISK] creates no coins and leaves every
    count in [-1, MAX_COINS_PER_DISK]; debts of more than one coin do not
    arise.  When neither disk is empty the special case is idle: the result
    is that of the plain independent trials and both counts stay in range. *)
Theorem zero_case_exchange_bounds q1 q2 rng :
  (0 <= q1 <= ZeroCase.MAX_COINS_PER_DISK)%Z ->
  (0 <= q2 <= ZeroCase.MAX_COINS_PER_DISK)%Z ->
  let '(c1, c2, rng') := ZeroCase.exchange q1 q2 rng in
  (c1 + c2 <= q1 + q2 /\
   -1 <= c1 <= ZeroCase.MAX_COINS_PER_DISK /\
   -1 <= c2 <= ZeroCase.MAX_COINS_PER_DISK)%Z /\
  ((0 < q1)%Z -> (0 < q2)%Z ->
   (c1, c2, rng')
   = independent_trials ZeroCase.MAX_COINS_PER_DISK q1 q2 q1 q2 rng /\
   (0 <= c1 /\ 0 <= c2)%Z).
Proof.
  intros H1 H2. unfold ZeroCase.exchange.
  pose proof (give_one_spec q1 q2 rng (proj1 H1) (proj1 H2)) as G1.
  destruct (ZeroCase.give_one q1 q2 rng) as [[a1 a2] g1].
  destruct G1 as ((S1 & A1 & A2 & L1 & L2) & I1).
  pose proof (give_one_spec a2 a1 g1 A2 A1) as G2.
  destruct (ZeroCase.give_one a2 a1 g1) as [[b2 b1] g2].
  destruct G2 as ((S2 & B2 & B1 & M2 & M1) & I2).
  pose proof (independent_trials_total ZeroCase.MAX_COINS_PER_DISK
                q1 q2 b1 b2 g2) as Ht.
  assert (Hcap : (-1 <= ZeroCase.MAX_COINS_PER_DISK)%Z)
    by (unfold ZeroCase.MAX_COINS_PER_DISK; lia).
  pose proof (independent_trials_bounds ZeroCase.MAX_COINS_PER_DISK
                q1 q2 b1 b2 g2 (-1) Hcap (proj1 H1) (proj1 H2)
                ltac:(lia) ltac:(lia)) as Hb.
  destruct (independent_trials ZeroCase.MAX_COINS_PER_DISK q1 q2 b1 b2 g2)
    as [[c1 c2] g3] eqn:E.
  split; [lia|].
  intros P1 P2.
  specialize (I1 P1). injection I1 as -> -> ->.
  specialize (I2 P2). injection I2 as -> -> ->.
  pose proof (independent_trials_in_range ZeroCase.MAX_COINS_PER_DISK
                q1 q2 rng H1 H2) as Hplain.
  rewrite E in Hplain. split; [symmetry; exact E | lia].
Qed.

Lemma zero_case_exchange_bounds_witness :
  ((0 <= 8 <= ZeroCase.MAX_COINS_PER_DISK)%Z /\
   (0 <= 0 <= ZeroCase.MAX_COINS_PER_DISK)%Z) /\
  let '(c1, c2, rng') := ZeroCase.exchange 8 0 zero_tape in
  (c1 + c2 <= 8 + 0 /\
   -1 <= c1 <= ZeroCase.MAX_COINS_PER_DISK /\
   -1 <= c2 <= ZeroCase.MAX_COINS_PER_DISK)%Z /\
  ((0 < 8)%Z -> (0 < 0)%Z ->
   (c1, c2, rng')
   = independent_trials ZeroCase.MAX_COINS_PER_DISK 8 0 8 0 zero_tape /\
   (0 <= c1 /\ 0 <= c2)%Z).
Proof.
  assert (H1 : (0 <= 8 <= ZeroCase.MAX_COINS_PER_DISK)%Z)
    by (unfold ZeroCase.MAX_COINS_PER_DISK; lia).
  assert (H2 : (0 <= 0 <= ZeroCase.MAX_COINS_PER_DISK)%Z)
    by (unfold ZeroCase.MAX_COINS_PER_DISK; lia).
  split; [split; assumption|].
  exact (zero_case_exchange_bounds 8 0 zero_tape H1 H2).
Defined.

End ZeroCaseFacts.

(** ** The statistics *)

Module StatsFacts.
Import CoinFacts TotalFacts.

Lemma nth_set_nth_same {A : Type} (a d : A) (l : list A) :
  forall i, (i < length l)%nat -> nth i (set_nth i a l) d = a.
Proof.
  induction l as [|h t IH]; intros [|i] Hi; cbn [length] in Hi; try lia.
  - reflexivity.
  - cbn [set_nth nth]. apply IH. lia.
Qed.

Lemma nth_set_nth_other {A : Type} (a d : A) (l : list A) :
  forall i k, i <> k -> nth k (set_nth i a l) d = nth k l d.
Proof.
  induction l as [|h t IH]; intros [|i] [|k] Hik; cbn [set_nth nth];
    try reflexivity; try contradiction.
  apply IH. intros E. apply Hik. f_equal. exact E.
Qed.

Lemma sumZ_set_nth (l : list Z) : forall i c v,
  nth_error l i = Some c -> sumZ (set_nth i v l) = (sumZ l - c + v)%Z.
Proof.
  induction l as [|h t IH]; intros [|i] c v Hn; cbn [nth_error] in Hn;
    try discriminate.
  - injection Hn as ->. cbn [set_nth sumZ fold_right]. lia.
  - cbn [set_nth sumZ fold_right]. fold (sumZ (set_nth i v t)). fold (sumZ t).
    rewrite (IH i c v Hn). lia.
Qed.

Lemma length_bump q counts : length (bump q counts) = length counts.
Proof.
  unfold bump. destruct (q <? 0)%Z; [reflexivity|].
  destruct (nth_error counts (Z.to_nat q)); [apply length_set_nth | reflexivity].
Qed.

(** One disk raises the entry of its own coin count, and no other. *)
Lemma nth_bump q counts k :
  (k < length counts)%nat ->
  nth k (bump q counts) 0%Z
  = (nth k counts 0 + if (q =? Z.of_nat k)%Z then 1 else 0)%Z.
Proof.
  intros Hk. unfold bump.
  destruct (q <? 0)%Z eqn:Eneg.
  - apply Z.ltb_lt in Eneg.
    destruct (q =? Z.of_nat k)%Z eqn:E; [apply Z.eqb_eq in E; lia | lia].
  - apply Z.ltb_ge in Eneg.
    destruct (q =? Z.of_nat k)%Z eqn:E.
    + apply Z.eqb_eq in E. subst q. rewrite Nat2Z.id.
      destruct (nth_error counts k) as [c|] eqn:En.
      * rewrite nth_set_nth_same by exact Hk.
        rewrite (nth_error_nth _ _ 0%Z En). reflexivity.
      * apply nth_error_None in En. lia.
    + apply Z.eqb_neq in E.
      destruct (nth_error counts (Z.to_nat q)); [|lia].
      rewrite nth_set_nth_other by lia. lia.
Qed.

Lemma sumZ_bump q counts :
  (0 <= q < Z.of_nat (length counts))%Z ->
  sumZ (bump q counts) = (sumZ counts + 1)%Z.
Proof.
  intros Hq. unfold bump.
  rewrite (proj2 (Z.ltb_ge q 0)) by lia.
  destruct (nth_error counts (Z.to_nat q)) as [c|] eqn:En.
  - rewrite (sumZ_set_nth counts _ c _ En). lia.
  - apply nth_error_None in En. lia.
Qed.

Lemma fold_bump_spec ds : forall acc,
  length (fold_left (fun counts d => bump (coin_count d) counts) ds acc)
  = length acc /\
  (forall k, (k < length acc)%nat ->
     nth k (fold_left (fun counts d => bump (coin_count d) counts) ds acc) 0%Z
     = (nth k acc 0 + Z.of_nat (holders (Z.of_nat k) ds))%Z) /\
  (coins_in_range (Z.of_nat (length acc) - 1) ds ->
   sumZ (fold_left (fun counts d => bump (coin_count d) counts) ds acc)
   = (sumZ acc + Z.of_nat (length ds))%Z).
Proof.
  induction ds as [|d ds IH]; intros acc; cbn [fold_left].
  - split; [reflexivity|]. split; [intros; cbn; lia | intros; cbn; lia].
  - specialize (IH (bump (coin_count d) acc)).
    rewrite length_bump in IH. destruct IH as (IL & IN & IS).
    split; [exact IL|]. split.
    + intros k Hk. rewrite (IN k Hk), nth_bump by exact Hk.
      unfold holders. cbn [filter].
      destruct (coin_count d =? Z.of_nat k)%Z; cbn [length]; lia.
    + intros Hr. inversion Hr as [|d' ds' Hd Hds]; subst.
      rewrite (IS Hds), sumZ_bump by lia. cbn [length]. lia.
Qed.

Lemma length_repeat_Z n : length (repeat 0%Z n) = n.
Proof. apply repeat_length. Qed.

Lemma nth_repeat_0 n k : nth k (repeat 0%Z n) 0%Z = 0%Z.
Proof.
  revert k. induction n as [|n IH]; intros [|k]; cbn [repeat nth]; auto.
Qed.

Lemma sumZ_repeat_0 n : sumZ (repeat 0%Z n) = 0%Z.
Proof. induction n as [|n IH]; cbn [repeat sumZ fold_right]; [|fold (sumZ (repeat 0%Z n))]; lia. Qed.

(** The histogram of a population: one entry per coin count, holding the
    number of disks with that count. *)
Lemma histogram_spec ds :
  length (Uniform.histogram ds) = 26%nat /\
  (forall k, (k < 26)%nat ->
     nth k (Uniform.histogram ds) 0%Z = Z.of_nat (holders (Z.of_nat k) ds)) /\
  (coins_in_range Uniform.MAX_COINS_PER_DISK ds ->
   sumZ (Uniform.histogram ds) = Z.of_nat (length ds)).
Proof.
  unfold Uniform.histogram.
  pose proof (fold_bump_spec ds
                (repeat 0%Z (Z.to_nat (Uniform.MAX_COINS_PER_DISK + 1))))
    as (HL & HN & HS).
  rewrite length_repeat_Z in *.
  change (Z.to_nat (Uniform.MAX_COINS_PER_DISK + 1)) with 26%nat in *.
  split; [exact HL|]. split.
  - intros k Hk. rewrite (HN k Hk), nth_repeat_0. lia.
  - intros Hr. rewrite HS, sumZ_repeat_0; [lia|]. exact Hr.
Qed.

Lemma zip_with_length {A B C : Type} (f : A -> B -> C) (l : list A) :
  forall m, length l = length m -> length (zip_with f l m) = length l.
Proof.
  induction l as [|a l IH]; intros [|b m] H; cbn [length] in H;
    try discriminate; cbn [zip_with length]; [reflexivity|].
  f_equal. apply IH. lia.
Qed.

Lemma zip_with_nth {A B C : Type} (f : A -> B -> C) (da : A) (db : B) (dc : C)
  (l : list A) :
  forall m k, (k < length l)%nat -> (k < length m)%nat ->
  nth k (zip_with f l m) dc = f (nth k l da) (nth k m db).
Proof.
  induction l as [|a l IH]; intros [|b m] [|k] Hl Hm; cbn [length] in *;
    try lia; cbn [zip_with nth]; [reflexivity|].
  apply IH; lia.
Qed.

Lemma sumZ_zip_add (l : list Z) : forall m,
  length l = length m -> sumZ (zip_with Z.add l m) = (sumZ l + sumZ m)%Z.
Proof.
  induction l as [|a l IH]; intros [|b m] H; cbn [length] in H;
    try discriminate; cbn [zip_with sumZ fold_right]; [lia|].
  fold (sumZ (zip_with Z.add l m)). fold (sumZ l). fold (sumZ m).
  rewrite IH by lia. lia.
Qed.

(** X12: a sample of the first program adds to the cumulative count of every
    coin value [k] the number of disks that hold [k] coins now, keeps the 26
    entries, and, for a population with its counts in range, raises the sum
    of the cumulative counts by the number of disks: each disk is observed
    once. *)
Theorem update_plot_counts c ds st :
  length (Uniform.cumulative_counts st) = 26%nat ->
  let st' := Uniform.update_plot c ds st in
  length (Uniform.cumulative_counts st') = 26%nat /\
  (forall k, (k < 26)%nat ->
     nth k (Uniform.cumulative_counts st') 0%Z
     = (nth k (Uniform.cumulative_counts st) 0
        + Z.of_nat (holders (Z.of_nat k) ds))%Z) /\
  (coins_in_range Uniform.MAX_COINS_PER_DISK ds ->
   sumZ (Uniform.cumulative_counts st')
   = (sumZ (Uniform.cumulative_counts st) + Z.of_nat (length ds))%Z).
Proof.
  intros Hl st'. subst st'. unfold Uniform.update_plot.
  cbn [Uniform.cumulative_counts].
  destruct (histogram_spec ds) as (HL & HN & HS).
  split; [|split].
  - rewrite zip_with_length; [exact Hl | rewrite HL; exact Hl].
  - intros k Hk.
    rewrite (zip_with_nth Z.add 0%Z 0%Z 0%Z) by lia.
    rewrite (HN k Hk). reflexivity.
  - intros Hr. rewrite sumZ_zip_add by lia. rewrite (HS Hr). reflexivity.
Qed.

Lemma update_plot_counts_witness :
  length (Uniform.cumulative_counts Uniform.initial_stats) = 26%nat /\
  nth 25 (Uniform.cumulative_counts
            (Uniform.update_plot 3 sfml_population Uniform.initial_stats)) 0%Z
  = (nth 25 (Uniform.cumulative_counts Uniform.initial_stats) 0
     + Z.of_nat (holders (Z.of_nat 25) sfml_population))%Z.
Proof.
  assert (Hl : length (Uniform.cumulative_counts Uniform.initial_stats) = 26%nat)
    by reflexivity.
  split; [exact Hl|].
  apply (proj1 (proj2 (update_plot_counts 3 sfml_population
                         Uniform.initial_stats Hl))).
  lia.
Defined.

(** *** The sample points *)

Lemma avgNum_finite c cum : is_finite (Uniform.avgNum c cum).
Proof.
  unfold Uniform.avgNum. destruct (c >? 0)%Z eqn:E; [|exact I].
  rewrite Z.gtb_ltb in E. apply Z.ltb_lt in E.
  unfold of_int. rewrite fdiv_Fin; [exact I|].
  apply not_0_IZR. lia.
Qed.

Lemma Forall_zip_with {A B C : Type} (P : A -> Prop) (Q : C -> Prop)
  (f : A -> B -> C) (l : list A) :
  (forall a b, P a -> Q (f a b)) ->
  Forall P l -> forall m, Forall Q (zip_with f l m).
Proof.
  intros Hf Hl. induction Hl as [|a l Ha _ IH]; intros [|b m];
    cbn [zip_with]; constructor; auto.
Qed.

Lemma Forall_snoc {A : Type} (P : A -> Prop) l a :
  Forall P l -> P a -> Forall P (l ++ [a]).
Proof.
  intros Hl Ha. apply Forall_app. split; [exact Hl | constructor; [exact Ha | constructor]].
Qed.

(** X13: in the first program every sample appends exactly one point to each
    of the series it finds, the x value being the collision counter, and
    thanks to the guard on the counter every point it records is a finite
    number, also when no collision was counted. *)
Theorem update_plot_points c ds st :
  all_finite (Uniform.ydata st) ->
  let st' := Uniform.update_plot c ds st in
  map (@length float) (Uniform.xdata st')
  = map S (map (@length float) (Uniform.xdata st)) /\
  Forall (fun series => last series NaN = of_int c) (Uniform.xdata st') /\
  all_finite (Uniform.ydata st') /\
  Forall is_finite (Uniform.g_coinFraction st').
Proof.
  intros Hy st'. subst st'. unfold Uniform.update_plot.
  cbn [Uniform.xdata Uniform.ydata Uniform.g_coinFraction].
  split; [|split; [|split]].
  - rewrite !map_map. apply map_ext. intros series. apply last_length.
  - rewrite Forall_map. apply Forall_forall. intros series _. apply last_last.
  - unfold all_finite in *.
    apply (Forall_zip_with (Forall is_finite) (Forall is_finite)); [|exact Hy].
    intros series cum Hs. apply Forall_snoc; [exact Hs | apply avgNum_finite].
  - rewrite Forall_map. apply Forall_forall. intros cum _. apply avgNum_finite.
Qed.

Lemma update_plot_points_witness :
  all_finite (Uniform.ydata Uniform.initial_stats) /\
  all_finite (Uniform.ydata
                (Uniform.update_plot 0 sfml_population Uniform.initial_stats)).
Proof.
  assert (Hy : all_finite (Uniform.ydata Uniform.initial_stats)).
  { unfold all_finite. cbn. repeat constructor. }
  split; [exact Hy|].
  exact (proj1 (proj2 (proj2 (update_plot_points 0 sfml_population
                                Uniform.initial_stats Hy)))).
Defined.

(** *** The SDL program divides without a guard *)





End StatsFacts.

(** ** Further facts on the kinematics and the controls *)

Module ArenaFacts.
Import KinematicsFacts.

(** What the reflection on one axis returns for a disk that fits between the
    walls: a position between the walls and the velocity with its sign kept
    or flipped. *)
Lemma reflect_inside (pos vel : R) (r : Z) (hi : R) :
  IZR r + IZR r <= hi ->
  exists pos' vel',
    reflect (Fin pos) (Fin vel) r (Fin hi) (Fin (hi - IZR r))
    = (Fin pos', Fin vel') /\
    IZR r <= pos' <= hi - IZR r /\ (vel' = vel \/ vel' = - vel).
Proof.
  intros Hfit. rewrite reflect_Fin.
  destruct (Rlt_dec (pos - IZR r) 0);
    [|destruct (Rlt_dec hi (pos + IZR r))];
    eexists; eexists; (split; [reflexivity|]); split; try lra; auto.
Qed.

(** X15: whatever the finite position, velocity, time step and speed factor,
    [update_position] returns a disk that lies inside the arena when its
    diameter fits it, with each velocity component kept or negated (so the
    speed is unchanged) and the radius and coins untouched. *)
Theorem update_position_stays_inside (sf px py wx wy : R) (r q : Z) (t : R) :
  (2 * r <= Uniform.WIDTH)%Z -> (2 * r <= 400)%Z ->
  let d' := Uniform.update_position (Fin sf)
              (mkDisk (Fin px) (Fin py) (Fin wx) (Fin wy) r q) (Fin t) in
  inside (IZR Uniform.WIDTH) 400 d' /\
  (vx d' = Fin wx \/ vx d' = Fin (- wx)) /\
  (vy d' = Fin wy \/ vy d' = Fin (- wy)) /\
  radius d' = r /\ coin_count d' = q.
Proof.
  intros Hw Hh d'. subst d'.
  unfold Uniform.update_position, Uniform.CHART_TOP, of_int.
  cbn [x y vx vy radius coin_count fadd fmul fsub].
  assert (Hw' : IZR r + IZR r <= IZR Uniform.WIDTH)
    by (rewrite <- plus_IZR; apply IZR_le; lia).
  assert (Hh' : IZR r + IZR r <= 400)
    by (rewrite <- plus_IZR; apply IZR_le; lia).
  rewrite (minus_IZR Uniform.WIDTH r).
  destruct (reflect_inside (px + wx * t * sf) wx r (IZR Uniform.WIDTH) Hw')
    as (px' & wx' & -> & Hpx & Hwx).
  destruct (reflect_inside (py + wy * t * sf) wy r 400 Hh')
    as (py' & wy' & -> & Hpy & Hwy).
  cbn [x y vx vy radius coin_count].
  split; [|split; [|split; [|split]]]; try reflexivity.
  - exists px', py', wx', wy'. cbn [radius coin_count].
    split; [reflexivity | split; assumption].
  - destruct Hwx as [-> | ->]; auto.
  - destruct Hwy as [-> | ->]; auto.
Qed.

Lemma update_position_stays_inside_witness :
  ((2 * 20 <= Uniform.WIDTH)%Z /\ (2 * 20 <= 400)%Z) /\
  inside (IZR Uniform.WIDTH) 400
    (Uniform.update_position (Fin 5)
       (mkDisk (Fin 770) (Fin 10) (Fin 150) (Fin (-80)) 20 3) (Fin (1 / 60))).
Proof.
  assert (Hw : (2 * 20 <= Uniform.WIDTH)%Z) by (unfold Uniform.WIDTH; lia).
  assert (Hh : (2 * 20 <= 400)%Z) by lia.
  split; [split; assumption|].
  exact (proj1 (update_position_stays_inside 5 770 10 150 (-80) 20 3 (1 / 60)
                  Hw Hh)).
Defined.

End ArenaFacts.

Module ControlFacts.
Import Controls.




End ControlFacts.

(** ** Placement from [rand()] *)

Module RandPlacementFacts.
Import RandPlacement.

Lemma rand_range rs : (0 <= fst (rand rs) <= RAND_MAX)%Z.
Proof.
  unfold rand. cbn [fst].
  pose proof (Z.mod_pos_bound (rand_tape rs (rand_cursor rs)) (RAND_MAX + 1)).
  unfold RAND_MAX in *. lia.
Qed.

Lemma uniform_real_finite a b g :
  exists v, fst (uniform_real (Fin a) (Fin b) g) = Fin v.
Proof. unfold uniform_real, rng_next. cbn. eexists. reflexivity. Qed.

(** The position of a disk on one axis: inside for any output of [rand()]. *)
Lemma rand_coordinate r (span : Z) (w : R) :
  (0 <= r)%Z -> (0 < span)%Z -> IZR (span + 2 * Matplot.DISK_RADIUS) = w ->
  IZR Matplot.DISK_RADIUS <= IZR (Matplot.DISK_RADIUS + Z.rem r span)
  <= w - IZR Matplot.DISK_RADIUS.
Proof.
  intros Hr Hs <-.
  pose proof (Z.rem_bound_pos r span Hr Hs) as Hb.
  rewrite <- minus_IZR. split; apply IZR_le; lia.
Qed.

(** X17: the placement loop of the SDL program cannot fail: for every output
    of [rand()] and of the engine it returns one disk per entry of the
    distribution, with the coins of that entry, the radius 40 and a finite
    position and velocity inside the 800 x 600 arena. *)
Theorem create_disks_inside coins : forall rs rng,
  let '(ds, _, _) := create_disks coins rs rng in
  map coin_count ds = coins /\
  Forall (fun d => radius d = Matplot.DISK_RADIUS) ds /\
  Forall (inside (IZR Matplot.WIDTH) (IZR Matplot.HEIGHT)) ds.
Proof.
  induction coins as [|q coins IH]; intros rs rng; cbn [create_disks].
  - repeat split; constructor.
  - pose proof (rand_range rs) as Rx.
    destruct (rand rs) as [rx rs1]. cbn [fst] in Rx.
    pose proof (rand_range rs1) as Ry.
    destruct (rand rs1) as [ry rs2]. cbn [fst] in Ry.
    destruct (uniform_real_finite (-200) 200 rng) as (wx & Hwx).
    destruct (uniform_real (Fin (-200)) (Fin 200) rng) as [wx' g1].
    cbn [fst] in Hwx. subst wx'.
    destruct (uniform_real_finite (-200) 200 g1) as (wy & Hwy).
    destruct (uniform_real (Fin (-200)) (Fin 200) g1) as [wy' g2].
    cbn [fst] in Hwy. subst wy'.
    specialize (IH rs2 g2).
    destruct (create_disks coins rs2 g2) as [[rest rs3] g3].
    destruct IH as (Hc & Hr & Hi).
    split; [cbn [map coin_count]; f_equal; exact Hc|].
    split; constructor; try assumption; try reflexivity.
    unfold inside, of_int. cbn [radius coin_count].
    eexists; eexists; eexists; eexists. split; [reflexivity|].
    split; apply rand_coordinate; try lia; reflexivity.
Qed.

(** With coincident centres the resolver of the SDL program divides by the
    zero distance, as the others do. *)
Lemma matplot_coincident px py wx1 wy1 q1 wx2 wy2 q2 rng :
  let r := Matplot.handle_disk_collision
             (mkDisk (Fin px) (Fin py) wx1 wy1 Matplot.DISK_RADIUS q1)
             (mkDisk (Fin px) (Fin py) wx2 wy2 Matplot.DISK_RADIUS q2) rng in
  fst (fst r) = true /\
  vx (fst (snd (fst r))) = NaN /\ vy (fst (snd (fst r))) = NaN /\
  vx (snd (snd (fst r))) = NaN /\ vy (snd (snd (fst r))) = NaN.
Proof.
  unfold Matplot.handle_disk_collision. rewrite distance_Fin.
  rewrite (proj2 (gap_zero px py px py)) by (split; reflexivity).
  cbn [radius]. unfold of_int, Matplot.DISK_RADIUS.
  change (40 + 40)%Z with 80%Z.
  rewrite (proj2 (flt_Fin 0 80)) by lra.
  unfold normal. cbn [x y fsub]. rewrite !fdiv_zero.
  unfold elastic, along, set_vel. cbn [vx vy coin_count].
  destruct (independent_trials _ _ _ _ _ _) as [[c1 c2] g].
  cbn [fst snd set_coins vx vy].
  destruct wx1, wy1, wx2, wy2; cbn; repeat split; reflexivity.
Qed.

(** X18: the placement loop of the SDL program does not keep the disks
    apart: when the third and fourth output of [rand()] leave the same
    remainders as the first and second, the first two disks are created on
    one centre, and the resolver called on them reports a collision and
    turns both velocities into [NaN]. *)
Theorem create_disks_can_coincide q1 q2 coins rs rng :
  let '(r0, rs0) := rand rs in
  let '(r1, rs1) := rand rs0 in
  let '(r2, rs2) := rand rs1 in
  let '(r3, _) := rand rs2 in
  Z.rem r2 (Matplot.WIDTH - 2 * Matplot.DISK_RADIUS)
  = Z.rem r0 (Matplot.WIDTH - 2 * Matplot.DISK_RADIUS) ->
  Z.rem r3 (Matplot.HEIGHT - 2 * Matplot.DISK_RADIUS)
  = Z.rem r1 (Matplot.HEIGHT - 2 * Matplot.DISK_RADIUS) ->
  exists d1 d2 rest,
    fst (fst (create_disks (q1 :: q2 :: coins) rs rng)) = d1 :: d2 :: rest /\
    distance d1 d2 = Fin 0 /\
    forall g,
      let '(hit, (e1, e2), _) := Matplot.handle_disk_collision d1 d2 g in
      hit = true /\ vx e1 = NaN /\ vy e1 = NaN /\ vx e2 = NaN /\ vy e2 = NaN.
Proof.
  cbn [create_disks].
  destruct (rand rs) as [r0 rs0]. destruct (rand rs0) as [r1 rs1].
  destruct (rand rs1) as [r2 rs2]. destruct (rand rs2) as [r3 rs3].
  intros Hx Hy. rewrite Hx, Hy.
  destruct (uniform_real (Fin (-200)) (Fin 200) rng) as [wx1 g1].
  destruct (uniform_real (Fin (-200)) (Fin 200) g1) as [wy1 g2].
  destruct (uniform_real (Fin (-200)) (Fin 200) g2) as [wx2 g3].
  destruct (uniform_real (Fin (-200)) (Fin 200) g3) as [wy2 g4].
  destruct (create_disks coins rs3 g4) as [[rest rs4] g5].
  cbn [fst]. eexists; eexists; eexists. split; [reflexivity|].
  unfold of_int. split.
  - rewrite distance_Fin. f_equal. apply gap_zero. split; reflexivity.
  - intros g.
    pose proof (matplot_coincident
                  (IZR (Matplot.DISK_RADIUS
                        + Z.rem r0 (Matplot.WIDTH - 2 * Matplot.DISK_RADIUS)))
                  (IZR (Matplot.DISK_RADIUS
                        + Z.rem r1 (Matplot.HEIGHT - 2 * Matplot.DISK_RADIUS)))
                  wx1 wy1 q1 wx2 wy2 q2 g) as H.
    cbv zeta in H.
    destruct (Matplot.handle_disk_collision _ _ g) as [[hit [e1 e2]] g'].
    exact H.
Qed.

Lemma create_disks_can_coincide_witness :
  exists d1 d2 rest,
    fst (fst (create_disks distribution (mkRand (fun _ => 12345%Z) 0) zero_tape))
    = d1 :: d2 :: rest /\
    distance d1 d2 = Fin 0 /\
    forall g,
      let '(hit, (e1, e2), _) := Matplot.handle_disk_collision d1 d2 g in
      hit = true /\ vx e1 = NaN /\ vy e1 = NaN /\ vx e2 = NaN /\ vy e2 = NaN.
Proof.
  exact (create_disks_can_coincide 8 0 [0; 0; 0; 0]%Z
           (mkRand (fun _ => 12345%Z) 0) zero_tape eq_refl eq_refl).
Defined.

End RandPlacementFacts.

(** ** The chart *)

Module ChartFacts.
Import Chart.

(** X19: the points that a sample records are drawn inside the chart region:
    an average over cumulative counts that are not negative is mapped by
    [scaleY] between the top (400) and the bottom (600) of the chart, values
    above the number of disks being clamped to the top; and a counter value
    between 0 and the present one is mapped by [scaleX] between 0 and the
    width (800), the guard on a counter of 0 included. *)
Theorem chart_points_inside (c cum n : Z) :
  (0 <= cum)%Z -> (0 <= n <= c)%Z ->
  (exists py, scaleY (Uniform.avgNum c cum) = Fin py /\ 400 <= py <= 600) /\
  (exists px, scaleX c (of_int n) = Fin px /\ 0 <= px <= 800).
Proof.
  intros Hcum Hn. split.
  - assert (Havg : exists v, Uniform.avgNum c cum = Fin v /\ 0 <= v).
    { unfold Uniform.avgNum. destruct (c >? 0)%Z eqn:E.
      - rewrite Z.gtb_ltb in E. apply Z.ltb_lt in E.
        assert (Hc : 0 < IZR c) by (apply IZR_lt; exact E).
        unfold of_int. rewrite fdiv_Fin by lra.
        eexists. split; [reflexivity|].
        apply Rle_mult_inv_pos; [apply IZR_le; exact Hcum | exact Hc].
      - exists 0. split; [reflexivity | lra]. }
    destruct Havg as (v & -> & Hv).
    unfold scaleY, chartY, chartHt, CHART_HEIGHT, Uniform.CHART_TOP, of_int, fgt.
    change (Z.of_nat Uniform.DISK_COUNT) with 20%Z.
    destruct (flt (Fin 20) (Fin v)) eqn:E.
    + rewrite fdiv_Fin by lra. cbn [fadd fsub fmul].
      eexists. split; [reflexivity|]. lra.
    + apply flt_Fin_false in E. rewrite fdiv_Fin by lra. cbn [fadd fsub fmul].
      eexists. split; [reflexivity|]. lra.
  - unfold scaleX, chartX, chartWidth, of_int.
    destruct (c =? 0)%Z eqn:E.
    + exists 0. split; [reflexivity | lra].
    + apply Z.eqb_neq in E.
      assert (Hc : 0 < IZR c) by (apply IZR_lt; lia).
      rewrite fdiv_Fin by lra. cbn [fadd fmul].
      eexists. split; [reflexivity|].
      assert (H0 : 0 <= IZR n) by (apply IZR_le; lia).
      assert (H1 : IZR n <= IZR c) by (apply IZR_le; lia).
      assert (Hq0 : 0 <= IZR n / IZR c)
        by (apply Rle_mult_inv_pos; assumption).
      assert (Hq1 : IZR n / IZR c <= 1).
      { apply (Rmult_le_reg_r (IZR c)); [exact Hc|].
        replace (IZR n / IZR c * IZR c) with (IZR n) by (field; lra). lra. }
      unfold Uniform.WIDTH. lra.
Qed.

Lemma chart_points_inside_witness :
  ((0 <= 30)%Z /\ (0 <= 4 <= 7)%Z) /\
  (exists py, scaleY (Uniform.avgNum 7 30) = Fin py /\ 400 <= py <= 600) /\
  (exists px, scaleX 7 (of_int 4) = Fin px /\ 0 <= px <= 800).
Proof.
  assert (H1 : (0 <= 30)%Z) by lia.
  assert (H2 : (0 <= 4 <= 7)%Z) by lia.
  split; [split; assumption|].
  exact (chart_points_inside 7 30 4 H1 H2).
Defined.

End ChartFacts.

(** ** Further facts on the initial placement *)

Module PlacedFacts.
Import Uniform PlacementFacts TotalFacts.

(** A draw of [uniform_real] over finite bounds lies between them. *)
Lemma uniform_real_range (a b : R) g :
  a <= b ->
  exists v, uniform_real (Fin a) (Fin b) g
            = (Fin v, mkRng (tape g) (S (cursor g))) /\ a <= v <= b.
Proof.
  intros Hab. unfold uniform_real, rng_next. cbn [fadd fsub fmul].
  eexists. split; [reflexivity|].
  pose proof (Z.mod_pos_bound (tape g (cursor g)) raw_range) as Hm.
  assert (Hr : (0 < raw_range)%Z) by (unfold raw_range; lia).
  specialize (Hm Hr).
  set (raw := (tape g (cursor g) mod raw_range)%Z) in *.
  assert (H0 : 0 <= IZR raw) by (apply IZR_le; lia).
  assert (H1 : IZR raw <= IZR raw_range) by (apply IZR_le; lia).
  assert (Hd : 0 < IZR raw_range) by (apply IZR_lt; exact Hr).
  assert (U0 : 0 <= IZR raw / IZR raw_range)
    by (apply Rle_mult_inv_pos; assumption).
  assert (U1 : IZR raw / IZR raw_range <= 1).
  { apply (Rmult_le_reg_r (IZR raw_range)); [exact Hd|].
    replace (IZR raw / IZR raw_range * IZR raw_range) with (IZR raw)
      by (field; lra). lra. }
  set (u := IZR raw / IZR raw_range) in *.
  assert (P0 : 0 <= (b - a) * u) by (apply Rmult_le_pos; lra).
  assert (P1 : 0 <= (b - a) * (1 - u)) by (apply Rmult_le_pos; lra).
  lra.
Qed.

(** What a valid position is, for a finite point. *)
Lemma is_valid_position_true ds (a b : R) (r : Z) :
  is_valid_position ds (Fin a) (Fin b) r = true ->
  (IZR r <= a <= IZR WIDTH - IZR r /\ IZR r <= b <= 400 - IZR r) /\
  forall c e wx wy r' q,
    In (mkDisk (Fin c) (Fin e) wx wy r' q) ds ->
    IZR (r + r') * (11 / 10) * (IZR (r + r') * (11 / 10))
    <= (a - c) * (a - c) + (b - e) * (b - e).
Proof.
  unfold is_valid_position, CHART_TOP, of_int, fgt. cbn [fsub fadd].
  destruct (flt (Fin (a - IZR r)) (Fin 0)) eqn:E1; [discriminate|].
  destruct (flt (Fin (IZR WIDTH)) (Fin (a + IZR r))) eqn:E2; [discriminate|].
  destruct (flt (Fin (b - IZR r)) (Fin 0)) eqn:E3; [discriminate|].
  destruct (flt (Fin 400) (Fin (b + IZR r))) eqn:E4; [discriminate|].
  cbn [orb]. intros Hall.
  apply flt_Fin_false in E1, E2, E3, E4.
  split; [lra|].
  intros c e wx wy r' q Hin.
  rewrite forallb_forall in Hall. specialize (Hall _ Hin).
  cbn [x y radius fsub fmul fadd] in Hall.
  apply negb_true_iff, flt_Fin_false in Hall. exact Hall.
Qed.

(** The bounds test never rejects a draw of the search. *)
Lemma draws_inside g :
  exists a b,
    uniform_real (of_int DISK_RADIUS) (of_int (WIDTH - DISK_RADIUS)) g
    = (Fin a, mkRng (tape g) (S (cursor g))) /\
    uniform_real (of_int DISK_RADIUS) (CHART_TOP - of_int DISK_RADIUS)%fl
      (mkRng (tape g) (S (cursor g)))
    = (Fin b, mkRng (tape g) (S (S (cursor g)))) /\
    IZR DISK_RADIUS <= a <= IZR WIDTH - IZR DISK_RADIUS /\
    IZR DISK_RADIUS <= b <= 400 - IZR DISK_RADIUS.
Proof.
  unfold of_int, CHART_TOP. cbn [fsub].
  destruct (uniform_real_range (IZR DISK_RADIUS) (IZR (WIDTH - DISK_RADIUS)) g)
    as (a & Ea & Ha).
  { unfold DISK_RADIUS, WIDTH. change (800 - 20)%Z with 780%Z. lra. }
  destruct (uniform_real_range (IZR DISK_RADIUS) (400 - IZR DISK_RADIUS)
              (mkRng (tape g) (S (cursor g)))) as (b & Eb & Hb).
  { unfold DISK_RADIUS. lra. }
  exists a, b. split; [exact Ea|]. split; [exact Eb|].
  rewrite minus_IZR in Ha. split; lra.
Qed.

Lemma place_disks_failure_index todo : forall i ds rng j,
  fst (place_disks todo i ds rng) = PlacementFailure j -> (i <= j)%nat.
Proof.
  induction todo as [|todo IH]; intros i ds rng j H; cbn [place_disks] in H.
  - discriminate.
  - destruct (place_one i ds rng) as [[ds1|] g1].
    + apply IH in H. lia.
    + cbn in H. injection H as <-. lia.
Qed.

Lemma place_disks_S todo i ds rng :
  place_disks (S todo) i ds rng
  = match place_one i ds rng with
    | (None, rng) => (PlacementFailure i, rng)
    | (Some disks, rng) => place_disks todo (S i) disks rng
    end.
Proof. reflexivity. Qed.

(** X20: the search for the position of the first disk cannot fail: with an
    empty population the first attempt is accepted for every engine, after
    four draws (two for the position, two for the velocity) the disk holds
    the 25 coins, and no run of the initialization reports a failure for
    disk 0. *)
Theorem first_disk_always_placed rng :
  (exists d,
      placed_prefix 1 0 [] rng
      = Some ([d], mkRng (tape rng) (4 + cursor rng)) /\
      coin_count d = MAX_COINS_PER_DISK /\ radius d = DISK_RADIUS /\
      inside (IZR WIDTH) 400 d) /\
  fst (initialize_population rng) <> PlacementFailure 0.
Proof.
  assert (H1 : exists d,
      place_one 0 [] rng = (Some [d], mkRng (tape rng) (4 + cursor rng)) /\
      coin_count d = MAX_COINS_PER_DISK /\ radius d = DISK_RADIUS /\
      inside (IZR WIDTH) 400 d).
  { unfold place_one. change default_max_attempts with (S 999).
    destruct (draws_inside rng) as (a & b & Ea & Eb & Ha & Hb).
    rewrite find_valid_position_first; rewrite Ea; cbn [fst snd]; rewrite Eb;
      cbn [fst snd].
    - destruct (uniform_real_range (-200) 200
                  (mkRng (tape rng) (S (S (cursor rng))))) as (wx & Ex & _);
        [lra|].
      rewrite Ex. cbn [tape cursor].
      destruct (uniform_real_range (-200) 200
                  (mkRng (tape rng) (S (S (S (cursor rng)))))) as (wy & Ey & _);
        [lra|].
      rewrite Ey. cbn [tape cursor Nat.eqb app].
      eexists. split; [reflexivity|]. cbn [coin_count radius].
      split; [reflexivity|]. split; [reflexivity|].
      exists a, b, wx, wy. cbn [radius coin_count].
      split; [reflexivity | split; lra].
    - apply is_valid_position_nil; lra. }
  destruct H1 as (d & E & Hq & Hr & Hi).
  split.
  - exists d. cbn [placed_prefix]. rewrite E. auto.
  - unfold initialize_population.
    change DISK_COUNT with (S 19). rewrite place_disks_S, E. intros H. apply place_disks_failure_index in H. lia.
Qed.

(** *** A population that was placed *)

Lemma find_valid_position_finite ds r n : forall rng px py rng',
  find_valid_position ds rng r n = (Some (px, py), rng') ->
  is_finite px /\ is_finite py.
Proof.
  induction n as [|n IH]; intros rng px py rng' H; cbn [find_valid_position] in H.
  - discriminate.
  - unfold of_int, CHART_TOP in H. cbn [fsub] in H.
    destruct (RandPlacementFacts.uniform_real_finite
                (IZR r) (IZR (WIDTH - r)) rng) as (a & Ea).
    destruct (uniform_real (Fin (IZR r)) (Fin (IZR (WIDTH - r))) rng)
      as [qx g1]. cbn [fst] in Ea. subst qx.
    destruct (RandPlacementFacts.uniform_real_finite
                (IZR r) (400 - IZR r) g1) as (b & Eb).
    destruct (uniform_real (Fin (IZR r)) (Fin (400 - IZR r)) g1) as [qy g2].
    cbn [fst] in Eb. subst qy.
    destruct (is_valid_position ds (Fin a) (Fin b) r).
    + injection H as <- <- _. split; exact I.
    + eapply IH. unfold of_int, CHART_TOP. cbn [fsub]. exact H.
Qed.

(** The disk that one pass of the placement loop adds. *)
Lemma place_one_disk i ds rng ds' rng' :
  place_one i ds rng = (Some ds', rng') ->
  exists d, ds' = ds ++ [d] /\
            is_valid_position ds (x d) (y d) (radius d) = true /\
            finite_disk d /\ radius d = DISK_RADIUS /\
            coin_count d = if Nat.eqb i 0 then MAX_COINS_PER_DISK else 0%Z.
Proof.
  unfold place_one.
  destruct (find_valid_position ds rng DISK_RADIUS default_max_attempts)
    as [[[px py]|] g] eqn:E; [|discriminate].
  destruct (RandPlacementFacts.uniform_real_finite (-200) 200 g) as (wx & Ex).
  destruct (uniform_real (Fin (-200)) (Fin 200) g) as [wx' g1].
  cbn [fst] in Ex. subst wx'.
  destruct (RandPlacementFacts.uniform_real_finite (-200) 200 g1) as (wy & Ey).
  destruct (uniform_real (Fin (-200)) (Fin 200) g1) as [wy' g2].
  cbn [fst] in Ey. subst wy'.
  intros H. injection H as <- _.
  eexists. split; [reflexivity|]. cbn [x y radius coin_count].
  split; [eapply find_valid_position_valid, E|].
  split; [|split; reflexivity].
  destruct (find_valid_position_finite _ _ _ _ _ _ _ E) as [Fx Fy].
  unfold finite_disk. cbn [x y vx vy is_finite]. auto.
Qed.

(** What the placement loop keeps and adds. *)
Lemma place_disks_tidy todo : forall i ds rng ds' rng',
  place_disks todo i ds rng = (Placed ds', rng') ->
  well_placed ds ->
  Forall (fun d => finite_disk d /\ radius d = DISK_RADIUS) ds ->
  well_placed ds' /\
  Forall (fun d => finite_disk d /\ radius d = DISK_RADIUS) ds' /\
  total_coins ds'
  = (total_coins ds
     + if (Nat.eqb i 0 && negb (Nat.eqb todo 0))%bool
       then MAX_COINS_PER_DISK else 0)%Z.
Proof.
  induction todo as [|todo IH]; intros i ds rng ds' rng' H Hw Hf;
    cbn [place_disks] in H.
  - injection H as <- _. rewrite andb_false_r. repeat split; try assumption. lia.
  - destruct (place_one i ds rng) as [[ds1|] g1] eqn:E; [|discriminate].
    apply place_one_disk in E as (d & -> & Hv & Fd & Hr & Hq).
    apply IH in H.
    + destruct H as (Hw' & Hf' & Ht). split; [exact Hw'|]. split; [exact Hf'|].
      rewrite Ht. cbn [Nat.eqb andb negb]. rewrite andb_true_r.
      assert (Happ : total_coins (ds ++ [d]) = (total_coins ds + coin_count d)%Z).
      { clear. induction ds as [|h t IHt]; cbn [app total_coins fold_right].
        - lia.
        - fold (total_coins (t ++ [d])). fold (total_coins t). rewrite IHt. lia. }
      rewrite Happ, Hq. lia.
    + apply well_placed_snoc; assumption.
    + apply Forall_app. split; [exact Hf|]. constructor; [split; assumption|].
      constructor.
Qed.

(** Two finite disks of the radius of the program, the second at a valid
    position for a population that holds the first, are not in collision. *)
Lemma valid_position_no_collision ds dn dm g :
  finite_disk dn -> finite_disk dm ->
  radius dn = DISK_RADIUS -> radius dm = DISK_RADIUS ->
  In dn ds ->
  is_valid_position ds (x dm) (y dm) (radius dm) = true ->
  inside (IZR WIDTH) 400 dm /\
  handle_disk_collision dn dm g = (false, (dn, dm), g).
Proof.
  intros Fn Fm Rn Rm Hin Hv.
  destruct dn as [[pxn|] [pyn|] [wxn|] [wyn|] rn qn];
    try (exfalso; unfold finite_disk in Fn; cbn in Fn; tauto).
  destruct dm as [[pxm|] [pym|] [wxm|] [wym|] rm qm];
    try (exfalso; unfold finite_disk in Fm; cbn in Fm; tauto).
  cbn [radius x y] in *. subst rn rm.
  apply is_valid_position_true in Hv as [Hb Hall].
  specialize (Hall _ _ _ _ _ _ Hin).
  split.
  - exists pxm, pym, wxm, wym. cbn [radius coin_count].
    split; [reflexivity | lra].
  - unfold handle_disk_collision. rewrite distance_Fin. cbn [radius].
    unfold of_int, DISK_RADIUS in *. change (20 + 20)%Z with 40%Z in *.
    rewrite (proj2 (flt_Fin_false _ _)); [reflexivity|].
    assert (H44 : 44 * 44 <= (pxm - pxn) * (pxm - pxn) + (pym - pyn) * (pym - pyn))
      by lra.
    unfold gap. apply Rle_trans with (sqrt (44 * 44)).
    + rewrite sqrt_square by lra. lra.
    + apply sqrt_le_1_alt. exact H44.
Qed.

(** X21: a population that the initialization returns holds the 25 coins,
    every disk finite, of radius 20 and inside the arena, and no two of its
    disks are in collision: the resolver called on any pair of them reports
    no collision and changes nothing. *)
Theorem placed_population_clear rng ds g :
  initialize_population rng = (Placed ds, g) ->
  total_coins ds = MAX_COINS_PER_DISK /\
  Forall (fun d => radius d = DISK_RADIUS /\ inside (IZR WIDTH) 400 d) ds /\
  forall n m dn dm g',
    (n < m)%nat -> nth_error ds n = Some dn -> nth_error ds m = Some dm ->
    handle_disk_collision dn dm g' = (false, (dn, dm), g').
Proof.
  intros H. unfold initialize_population in H.
  apply place_disks_tidy in H as (Hw & Hf & Ht);
    [|apply well_placed_nil | constructor].
  split; [rewrite Ht; cbn; lia|].
  assert (Hin : forall m dm, nth_error ds m = Some dm ->
            is_valid_position (firstn m ds) (x dm) (y dm) (radius dm) = true /\
            finite_disk dm /\ radius dm = DISK_RADIUS).
  { intros m dm Hm. split; [apply Hw, Hm|].
    exact (CoinFacts.nth_error_Forall _ _ _ _ Hf Hm). }
  split.
  - apply Forall_forall. intros d Hd.
    destruct (In_nth_error _ _ Hd) as (m & Hm).
    destruct (Hin m d Hm) as (Hv & Fd & Rd). split; [exact Rd|].
    destruct d as [[px|] [py|] [wx|] [wy|] r q];
      try (exfalso; unfold finite_disk in Fd; cbn in Fd; tauto).
    cbn [x y radius] in *.
    apply is_valid_position_true in Hv as [Hb _].
    exists px, py, wx, wy. cbn [radius coin_count].
    split; [reflexivity | lra].
  - intros n m dn dm g' Hnm Hn Hm.
    destruct (Hin n dn Hn) as (_ & Fn & Rn).
    destruct (Hin m dm Hm) as (Hv & Fm & Rm).
    apply (valid_position_no_collision (firstn m ds)); try assumption.
    apply (nth_error_In _ n). rewrite nth_error_firstn.
    rewrite (proj2 (Nat.ltb_lt n m) Hnm). exact Hn.
Qed.

(** *** A run of the placement that succeeds *)

Lemma uniform_real_at (a b : R) (t : nat -> Z) (c : nat) :
  uniform_real (Fin a) (Fin b) (mkRng t c)
  = (Fin (a + (b - a) * (IZR (t c mod raw_range) / IZR raw_range)),
     mkRng t (S c)).
Proof. reflexivity. Qed.

Ltac grid_draws :=
  repeat (rewrite uniform_real_at; cbn [fst snd]);
  repeat match goal with
    | |- context [(grid_tape ?c mod raw_range)%Z] =>
        let v := eval vm_compute in (grid_tape c mod raw_range)%Z in
        change (grid_tape c mod raw_range)%Z with v
    end.

Ltac grid_valid :=
  unfold is_valid_position, fgt, CHART_TOP, WIDTH;
  cbn [fsub fadd fmul x y radius forallb];
  unfold of_int; cbn [fsub fadd fmul];
  change (20 + 20)%Z with 40%Z; unfold raw_range;
  repeat (rewrite (proj2 (flt_Fin_false _ _)) by lra);
  reflexivity.

(** One pass of the placement loop whose first attempt is accepted. *)
Ltac grid_step :=
  rewrite place_disks_S; unfold place_one;
  change default_max_attempts with (S 999);
  rewrite find_valid_position_first;
  [ unfold of_int, CHART_TOP, DISK_RADIUS, WIDTH;
    change (800 - 20)%Z with 780%Z; cbn [fsub];
    grid_draws; cbn [Nat.eqb app]
  | unfold of_int, CHART_TOP, DISK_RADIUS, WIDTH;
    change (800 - 20)%Z with 780%Z; cbn [fsub];
    grid_draws; grid_valid ].

(** On the grid engine every disk is accepted at its first attempt, 47.5
    apart on two rows. *)
Lemma grid_population_placed :
  exists ds g, initialize_population grid_engine = (Placed ds, g).
Proof.
  eexists. eexists. unfold initialize_population, grid_engine.
  change DISK_COUNT with 20%nat.
  do 20 grid_step. reflexivity.
Qed.

Lemma placed_population_clear_witness :
  exists ds g,
    initialize_population grid_engine = (Placed ds, g) /\
    total_coins ds = MAX_COINS_PER_DISK /\
    Forall (fun d => radius d = DISK_RADIUS /\ inside (IZR WIDTH) 400 d) ds /\
    forall n m dn dm g',
      (n < m)%nat -> nth_error ds n = Some dn -> nth_error ds m = Some dm ->
      handle_disk_collision dn dm g' = (false, (dn, dm), g').
Proof.
  destruct grid_population_placed as (ds & g & H).
  exists ds, g. split; [exact H|].
  exact (placed_population_clear grid_engine ds g H).
Defined.

End PlacedFacts.

(** ** The distance, and the walls over a whole tick *)

Module WallFacts.
Import KinematicsFacts ArenaFacts ResponseFacts CoinFacts.

(** X22: [distance] does not depend on the order of the two disks; between
    finite centres it is a finite number that is not negative and is zero
    exactly when the centres coincide; with a centre that is not finite it
    is [NaN]. *)
Theorem distance_facts d1 d2 :
  distance d1 d2 = distance d2 d1 /\
  (forall px1 py1 px2 py2,
      x d1 = Fin px1 -> y d1 = Fin py1 -> x d2 = Fin px2 -> y d2 = Fin py2 ->
      exists g, distance d1 d2 = Fin g /\ 0 <= g /\
                (g = 0 <-> px2 = px1 /\ py2 = py1)) /\
  (x d1 = NaN \/ y d1 = NaN \/ x d2 = NaN \/ y d2 = NaN ->
   distance d1 d2 = NaN).
Proof.
  split; [apply distance_sym|]. split.
  - intros px1 py1 px2 py2 X1 Y1 X2 Y2.
    exists (gap px1 py1 px2 py2).
    split; [|split; [apply gap_nonneg | apply gap_zero]].
    unfold distance. rewrite X1, Y1, X2, Y2. reflexivity.
  - unfold distance.
    intros [H | [H | [H | H]]]; rewrite H;
      destruct (x d1), (y d1), (x d2), (y d2); reflexivity.
Qed.

Lemma distance_facts_witness :
  (x disk_a = Fin 100 /\ y disk_a = Fin 100 /\
   x disk_b = Fin 130 /\ y disk_b = Fin 100) /\
  exists g, distance disk_a disk_b = Fin g /\ 0 <= g /\
            (g = 0 <-> 130 = 100 /\ 100 = 100).
Proof.
  split; [repeat split|].
  exact (proj1 (proj2 (distance_facts disk_a disk_b)) 100 100 130 100
           eq_refl eq_refl eq_refl eq_refl).
Defined.

Lemma matplot_update_centre d dt :
  finite_disk d -> is_finite dt ->
  (2 * radius d <= Matplot.WIDTH)%Z -> (2 * radius d <= Matplot.HEIGHT)%Z ->
  let d' := Matplot.update_position d dt in
  centre_inside (IZR Matplot.WIDTH) (IZR Matplot.HEIGHT) d' /\
  radius d' = radius d.
Proof.
  intros Fd Ft Hw Hh.
  destruct d as [[px|] [py|] [wx|] [wy|] r q];
    try (exfalso; unfold finite_disk in Fd; cbn in Fd; tauto).
  destruct dt as [t|]; [|contradiction].
  cbn [radius] in *. unfold Matplot.update_position, of_int.
  cbn [x y vx vy radius coin_count fadd fmul].
  assert (Hw' : IZR r + IZR r <= IZR Matplot.WIDTH)
    by (rewrite <- plus_IZR; apply IZR_le; lia).
  assert (Hh' : IZR r + IZR r <= IZR Matplot.HEIGHT)
    by (rewrite <- plus_IZR; apply IZR_le; lia).
  rewrite (minus_IZR Matplot.WIDTH r), (minus_IZR Matplot.HEIGHT r).
  destruct (reflect_inside (px + wx * t) wx r (IZR Matplot.WIDTH) Hw')
    as (px' & wx' & -> & Hpx & _).
  destruct (reflect_inside (py + wy * t) wy r (IZR Matplot.HEIGHT) Hh')
    as (py' & wy' & -> & Hpy & _).
  cbv zeta. cbn [radius]. split; [|reflexivity].
  exists px', py'. cbn [x y radius]. auto.
Qed.

(** The resolver of the SDL program moves no disk. *)
Lemma matplot_handle_keeps_centre d1 d2 rng :
  let '(_, (e1, e2), _) := Matplot.handle_disk_collision d1 d2 rng in
  (x e1 = x d1 /\ y e1 = y d1 /\ radius e1 = radius d1) /\
  (x e2 = x d2 /\ y e2 = y d2 /\ radius e2 = radius d2).
Proof.
  unfold Matplot.handle_disk_collision.
  destruct (flt (distance d1 d2) (of_int (radius d1 + radius d2)));
    [|repeat split].
  destruct (normal d1 d2 (distance d1 d2)) as [nx ny].
  unfold elastic, set_vel. cbn [coin_count].
  destruct (independent_trials _ _ _ _ _ _) as [[c1 c2] g].
  cbn. repeat split.
Qed.

Lemma centre_inside_ext w h d e :
  x e = x d -> y e = y d -> radius e = radius d ->
  centre_inside w h d -> centre_inside w h e.
Proof.
  intros Hx Hy Hr (px & py & X & Y & Bx & By).
  exists px, py. rewrite Hx, Hy, Hr. auto.
Qed.

(** X23: the SDL program has no overlap fix, so its collisions move no disk:
    at the end of every tick with a finite time step each disk of a finite
    population of fitting radius has its centre inside the arena, at least
    [radius] away from every wall, whatever collisions were resolved. *)
Theorem matplot_step_stays_inside dt s :
  is_finite dt ->
  Forall (fun d => finite_disk d /\ (2 * radius d <= Matplot.WIDTH)%Z /\
                   (2 * radius d <= Matplot.HEIGHT)%Z) (Matplot.disks s) ->
  Forall (centre_inside (IZR Matplot.WIDTH) (IZR Matplot.HEIGHT))
    (Matplot.disks (Matplot.step dt s)).
Proof.
  intros Ft Hs. unfold Matplot.step.
  apply (fold_left_invariant
           (fun st => Forall (centre_inside (IZR Matplot.WIDTH)
                                (IZR Matplot.HEIGHT)) (Matplot.disks st))).
  - intros st i Hst.
    apply (fold_left_invariant
             (fun st => Forall (centre_inside (IZR Matplot.WIDTH)
                                  (IZR Matplot.HEIGHT)) (Matplot.disks st)));
      [|exact Hst].
    clear. intros st j Hst. unfold Matplot.collide_pair.
    destruct (nth_error (Matplot.disks st) i) as [a|] eqn:Ea; [|exact Hst].
    destruct (nth_error (Matplot.disks st) j) as [b|] eqn:Eb; [|exact Hst].
    pose proof (matplot_handle_keeps_centre a b (Matplot.rng st)) as Hk.
    destruct (Matplot.handle_disk_collision a b (Matplot.rng st))
      as [[hit [a' b']] g'].
    destruct Hk as ((Ax & Ay & Ar) & (Bx & By & Br)).
    assert (Ha' : centre_inside (IZR Matplot.WIDTH) (IZR Matplot.HEIGHT) a')
      by (apply (centre_inside_ext _ _ a); try assumption;
          exact (nth_error_Forall _ _ _ _ Hst Ea)).
    assert (Hb' : centre_inside (IZR Matplot.WIDTH) (IZR Matplot.HEIGHT) b')
      by (apply (centre_inside_ext _ _ b); try assumption;
          exact (nth_error_Forall _ _ _ _ Hst Eb)).
    destruct hit; cbn [Matplot.disks];
      (apply set_nth_Forall; [exact Hb'|]; apply set_nth_Forall; assumption).
  - cbn [Matplot.disks]. rewrite Forall_map.
    eapply Forall_impl; [|exact Hs]. intros d (Fd & Hw & Hh).
    apply (matplot_update_centre d dt Fd Ft Hw Hh).
Qed.

Lemma matplot_step_stays_inside_witness :
  (is_finite (Fin (1 / 100)) /\
   Forall (fun d => finite_disk d /\ (2 * radius d <= Matplot.WIDTH)%Z /\
                    (2 * radius d <= Matplot.HEIGHT)%Z)
     (Matplot.disks sdl_start)) /\
  Forall (centre_inside (IZR Matplot.WIDTH) (IZR Matplot.HEIGHT))
    (Matplot.disks (Matplot.step (Fin (1 / 100)) sdl_start)).
Proof.
  assert (Ft : is_finite (Fin (1 / 100))) by exact I.
  assert (Hs : Forall (fun d => finite_disk d /\
                         (2 * radius d <= Matplot.WIDTH)%Z /\
                         (2 * radius d <= Matplot.HEIGHT)%Z)
                 (Matplot.disks sdl_start)).
  { cbn. unfold finite_disk, Matplot.WIDTH, Matplot.HEIGHT.
    repeat constructor; cbn; lia. }
  split; [split; assumption|].
  exact (matplot_step_stays_inside (Fin (1 / 100)) sdl_start Ft Hs).
Defined.



End WallFacts.
